(** * Keycloak IDP redirector demo: the OIDC client, embedded and verified

    The development follows [src/providers/keycloak/KeycloakProvider.js]
    (the class [KeycloakProvider]) and [src/components/Callback.js] (the
    effect that handles the redirect back from Keycloak).

    Conventions of the embedding.
    - A JavaScript string is a [string] of the Standard Library.  The
      builtins [toLowerCase] and the regular-expression class [\s] are
      modelled on the ASCII range; statements that depend on them carry the
      hypothesis [is_ascii] on their input.
    - [localStorage] and [sessionStorage] are finite maps from keys to
      strings; [getItem] of a missing key is [None] (JavaScript [null]).
    - An [async] function is a resumption ([task]): it runs synchronously on
      the window state up to its next [await fetch(...)], and its
      continuation is resumed later on the window state of that moment.
    - A thrown exception is a value of [exn]; [try]/[catch] is written out.
    - An object or a function is a [VObj].  The text the engine prints for
      it and the state a React setter leaves when given it are not fixed by
      the program: they are the [Engine] that a window carries.
    - The body of a response is JSON other than [null], the JSON value
      [null], or not JSON: the three behave differently under
      [response.json()] and the member reads that follow it. *)

From Stdlib Require Import Ascii String List Bool Arith Lia.
From stdpp Require Import base option gmap strings list pretty.

Local Open Scope list_scope.
Local Open Scope string_scope.

(** ** JavaScript values *)

Module JS.

(** The values that flow through the code paths modelled here.  [VObj n] is
    an object or function identified by a descriptive name; it is always
    truthy and equal only to itself. *)
Inductive value : Type :=
| VUndefined
| VNull
| VBool (b : bool)
| VStr (s : string)
| VObj (name : string).

(** ToBoolean. *)
Definition truthy (v : value) : bool :=
  match v with
  | VUndefined | VNull => false
  | VBool b => b
  | VStr s => negb (String.eqb s "")
  | VObj _ => true
  end.

(** [a || b]. *)
Definition or_else (a b : value) : value := if truthy a then a else b.

(** ToBoolean of a string-or-null, as returned by [Storage.getItem]. *)
Definition truthy_item (o : option string) : bool :=
  match o with
  | Some s => negb (String.eqb s "")
  | None => false
  end.

(** [o || d] for a string-or-null/undefined [o] and a string [d]. *)
Definition item_or (o : option string) (d : string) : string :=
  match o with
  | Some s => if String.eqb s "" then d else s
  | None => d
  end.

(** Exceptions.  [Error msg] is [new Error(msg)]; the two others are the
    native errors that the modelled code can raise. *)
Inductive exn : Type :=
| Error (message : string)
| TypeError (what : string)
| SyntaxError (what : string).

Definition message (e : exn) : string :=
  match e with
  | Error m => m
  | TypeError m => m
  | SyntaxError m => m
  end.

(** [s.split(sep)] for a one-character separator: the pieces between the
    separators, in order; a string without separator is its only piece. *)
Fixpoint split (sep : ascii) (s : string) : list string :=
  match s with
  | EmptyString => [EmptyString]
  | String c s' =>
      if Ascii.eqb c sep then EmptyString :: split sep s'
      else match split sep s' with
           | p :: ps => String c p :: ps
           | [] => [String c EmptyString]
           end
  end.

(** [a[i]]: [None] is [undefined]. *)
Definition index {A} (l : list A) (i : nat) : option A := nth_error l i.

Definition is_upper (c : ascii) : bool :=
  let n := nat_of_ascii c in ((65 <=? n) && (n <=? 90))%nat.

Definition lower_char (c : ascii) : ascii :=
  if is_upper c then ascii_of_nat (nat_of_ascii c + 32) else c.

(** [s.toLowerCase()], on ASCII. *)
Fixpoint toLowerCase (s : string) : string :=
  match s with
  | EmptyString => EmptyString
  | String c s' => String (lower_char c) (toLowerCase s')
  end.

Definition is_ascii_char (c : ascii) : bool := (nat_of_ascii c <? 128)%nat.

Fixpoint is_ascii (s : string) : bool :=
  match s with
  | EmptyString => true
  | String c s' => is_ascii_char c && is_ascii s'
  end.

(** The property names every object literal inherits from
    [Object.prototype]. *)
Definition object_prototype_members : list string :=
  [ "constructor"; "__proto__"; "hasOwnProperty"; "isPrototypeOf";
    "propertyIsEnumerable"; "toLocaleString"; "toString"; "valueOf";
    "__defineGetter__"; "__defineSetter__"; "__lookupGetter__";
    "__lookupSetter__" ].

Fixpoint assoc (k : string) (l : list (string * string)) : option string :=
  match l with
  | [] => None
  | (k', v) :: l' => if String.eqb k k' then Some v else assoc k l'
  end.

Definition mem (k : string) (l : list string) : bool :=
  existsb (String.eqb k) l.

(** [obj[key]] for an object literal [obj] with string-valued own
    properties: own properties first, then the prototype chain.  A key that
    is [undefined] is converted to the string "undefined". *)
Definition get_literal (own : list (string * string)) (key : option string) : value :=
  let k := match key with Some k => k | None => "undefined" end in
  match assoc k own with
  | Some v => VStr v
  | None =>
      if mem k object_prototype_members
      then VObj ("Object.prototype." ++ k)
      else VUndefined
  end.

End JS.

Import JS.

(** ** Regular expressions

    The fragment of JavaScript regular expressions used by the source:
    character classes, concatenation, alternation and iteration.  [test] on
    a pattern anchored at both ends ([^...$], no flags) is membership of
    the whole string in the language of the pattern; it is decided here
    with derivatives. *)

Module Regex.

Inductive regex : Type :=
| Void
| Eps
| Class (p : ascii -> bool)
| Cat (r1 r2 : regex)
| Alt (r1 r2 : regex)
| Star (r : regex).

(** [r+] *)
Definition Plus (r : regex) : regex := Cat r (Star r).

Fixpoint nullable (r : regex) : bool :=
  match r with
  | Void => false
  | Eps => true
  | Class _ => false
  | Cat r1 r2 => nullable r1 && nullable r2
  | Alt r1 r2 => nullable r1 || nullable r2
  | Star _ => true
  end.

Fixpoint deriv (c : ascii) (r : regex) : regex :=
  match r with
  | Void => Void
  | Eps => Void
  | Class p => if p c then Eps else Void
  | Cat r1 r2 =>
      if nullable r1 then Alt (Cat (deriv c r1) r2) (deriv c r2)
      else Cat (deriv c r1) r2
  | Alt r1 r2 => Alt (deriv c r1) (deriv c r2)
  | Star r1 => Cat (deriv c r1) (Star r1)
  end.

Fixpoint accepts (r : regex) (w : list ascii) : bool :=
  match w with
  | [] => nullable r
  | c :: w' => accepts (deriv c r) w'
  end.

(** [/^r$/.test(s)] *)
Definition test (r : regex) (s : string) : bool :=
  accepts r (list_ascii_of_string s).

(** The language of a pattern. *)
Inductive Matches : regex -> list ascii -> Prop :=
| MEps : Matches Eps []
| MClass p c : p c = true -> Matches (Class p) [c]
| MCat r1 r2 w1 w2 : Matches r1 w1 -> Matches r2 w2 -> Matches (Cat r1 r2) (w1 ++ w2)%list
| MAltL r1 r2 w : Matches r1 w -> Matches (Alt r1 r2) w
| MAltR r1 r2 w : Matches r2 w -> Matches (Alt r1 r2) w
| MStarNil r : Matches (Star r) []
| MStarCons r w1 w2 : Matches r w1 -> Matches (Star r) w2 -> Matches (Star r) (w1 ++ w2)%list.

End Regex.

(** ** The domain router of [KeycloakProvider] *)

(** The object literal [domainMappings] of [determineLoginHintFromEmail]. *)
Definition domainMappings : list (string * string) :=
  [ ("gmail.com", "google");
    ("outlook.com", "microsoft");
    ("hotmail.com", "microsoft");
    ("live.com", "microsoft");
    ("msn.com", "microsoft") ].

(** [email.split('@')[1]?.toLowerCase()] *)
Definition email_domain (email : string) : option string :=
  match index (split "@" email) 1 with
  | Some d => Some (toLowerCase d)
  | None => None
  end.

(** [determineLoginHintFromEmail(email)]: [loginHint || null]. *)
Definition determineLoginHintFromEmail (email : string) : value :=
  let domain := email_domain email in
  let loginHint := get_literal domainMappings domain in
  or_else loginHint VNull.

(** [\s] on ASCII: tab, line feed, vertical tab, form feed, carriage
    return and space. *)
Definition is_space (c : ascii) : bool :=
  let n := nat_of_ascii c in (((9 <=? n) && (n <=? 13)) || (n =? 32))%nat.

(** [[^\s@]] *)
Definition not_space_at (c : ascii) : bool :=
  negb (is_space c || Ascii.eqb c "@").

Definition is_char (a : ascii) (c : ascii) : bool := Ascii.eqb c a.

(** [/^[^\s@]+@[^\s@]+\.[^\s@]+$/] *)
Definition emailRegex : Regex.regex :=
  Regex.Cat (Regex.Plus (Regex.Class not_space_at))
    (Regex.Cat (Regex.Class (is_char "@"))
       (Regex.Cat (Regex.Plus (Regex.Class not_space_at))
          (Regex.Cat (Regex.Class (is_char "."))
             (Regex.Plus (Regex.Class not_space_at))))).

(** [isValidEmail(email)] *)
Definition isValidEmail (email : string) : bool :=
  Regex.test emailRegex email.

(** ** Data exchanged with Keycloak *)

(** The JSON object of the token endpoint, as far as the code reads it.
    A field is [None] when the property is missing. *)
Record tokens : Type := mkTokens {
  access_token : option string;
  id_token : option string
}.

(** The JSON object of the userinfo endpoint, as far as the code reads it. *)
Module Claims.
Record t : Type := mk {
  sub : value;
  name : value;
  preferred_username : value;
  email : value;
  picture : value
}.
End Claims.

(** The object built by [normalizeUser]. *)
Module User.
Record t : Type := mk {
  id : value;
  name : value;
  email : value;
  picture : value;
  provider : value
}.
End User.

(** What [handleCallback] resolves to: [{ tokens, user }]. *)
Record callback_result : Type := mkCallbackResult {
  result_tokens : tokens;
  result_user : User.t
}.

(** The outcome of a call: a returned value or a thrown exception. *)
Inductive result (A : Type) : Type :=
| Returned (a : A)
| Thrown (e : exn).
Arguments Returned {A} a.
Arguments Thrown {A} e.

(** What [await fetch(...)] gives: a rejection (network failure), or a
    response with its status, its body as text ([response.text()]) and its
    body parsed ([response.json()]).  [Response _ _ (Some a)]: the body is
    JSON other than [null], and [a] holds the members the code reads of it
    (an absent member, or any member of a number or a string, is
    [undefined]); [Response _ _ None]: the body is not JSON, and [json()]
    rejects; [ResponseNull]: the body is the JSON text [null], [json()]
    resolves to [null], and reading a member of it throws a TypeError. *)
Inductive fetch_result (A : Type) : Type :=
| Rejected (e : exn)
| Response (http_status : nat) (text : string) (json : option A)
| ResponseNull (http_status : nat) (text : string).
Arguments Rejected {A} e.
Arguments Response {A} http_status text json.
Arguments ResponseNull {A} http_status text.

(** [response.ok]: the status is in the range 200-299. *)
Definition ok (http_status : nat) : bool :=
  ((200 <=? http_status) && (http_status <=? 299))%nat.

(** ** The state of one browser tab *)

(** What the JavaScript engine and React do with a value that is an object
    or a function, named as in [VObj]: [object_text n] is [String(o)], the
    text that [Storage.setItem] and a template literal give it (for
    [Object.prototype.constructor], the source text of the function
    [Object] as the engine prints it); [set_state_object n prev] is the
    state that a React state setter leaves when it is called with [o] while
    the state is [prev]: [o] itself, or, when [o] is a function, what
    [o(prev)] returns, since React takes a function for an updater. *)
Record Engine : Type := mkEngine {
  object_text : string -> string;
  set_state_object : string -> value -> value
}.

(** [window]: the two storages, [window.location], the flag
    [window.callbackProcessed], the hidden frames appended to
    [document.body], and the React state of the mounted [Callback]
    component ([status], [userInfo], [identityProvider]).
    [handleCallback_calls] is a ghost counter: the number of times the effect
    of [Callback] has called [keycloakProvider.handleCallback].  [engine] is
    the engine the tab runs on; nothing changes it. *)
Record Window : Type := mkWindow {
  localStorage : gmap string string;
  sessionStorage : gmap string string;
  location_href : string;
  location_origin : string;
  location_search : list (string * string);
  callbackProcessed : bool;
  iframes : list string;
  status : string;
  userInfo : option User.t;
  identityProvider : value;
  handleCallback_calls : nat;
  engine : Engine
}.

Definition with_localStorage (f : gmap string string -> gmap string string) (w : Window) : Window :=
  mkWindow (f (localStorage w)) (sessionStorage w) (location_href w)
    (location_origin w) (location_search w) (callbackProcessed w) (iframes w)
    (status w) (userInfo w) (identityProvider w) (handleCallback_calls w) (engine w).

Definition with_sessionStorage (f : gmap string string -> gmap string string) (w : Window) : Window :=
  mkWindow (localStorage w) (f (sessionStorage w)) (location_href w)
    (location_origin w) (location_search w) (callbackProcessed w) (iframes w)
    (status w) (userInfo w) (identityProvider w) (handleCallback_calls w) (engine w).

(** [window.location.href = url] *)
Definition set_href (url : string) (w : Window) : Window :=
  mkWindow (localStorage w) (sessionStorage w) url
    (location_origin w) (location_search w) (callbackProcessed w) (iframes w)
    (status w) (userInfo w) (identityProvider w) (handleCallback_calls w) (engine w).

Definition set_callbackProcessed (b : bool) (w : Window) : Window :=
  mkWindow (localStorage w) (sessionStorage w) (location_href w)
    (location_origin w) (location_search w) b (iframes w)
    (status w) (userInfo w) (identityProvider w) (handleCallback_calls w) (engine w).

(** [document.body.appendChild(iframe)] with [iframe.src = src] *)
Definition append_iframe (src : string) (w : Window) : Window :=
  mkWindow (localStorage w) (sessionStorage w) (location_href w)
    (location_origin w) (location_search w) (callbackProcessed w)
    (iframes w ++ [src])%list
    (status w) (userInfo w) (identityProvider w) (handleCallback_calls w) (engine w).

Definition setStatus (s : string) (w : Window) : Window :=
  mkWindow (localStorage w) (sessionStorage w) (location_href w)
    (location_origin w) (location_search w) (callbackProcessed w) (iframes w)
    s (userInfo w) (identityProvider w) (handleCallback_calls w) (engine w).

Definition setUserInfo (u : option User.t) (w : Window) : Window :=
  mkWindow (localStorage w) (sessionStorage w) (location_href w)
    (location_origin w) (location_search w) (callbackProcessed w) (iframes w)
    (status w) u (identityProvider w) (handleCallback_calls w) (engine w).

(** [setIdentityProvider(v)], the setter of a React state: a function is
    taken for an updater and called with the current state. *)
Definition setIdentityProvider (v : value) (w : Window) : Window :=
  mkWindow (localStorage w) (sessionStorage w) (location_href w)
    (location_origin w) (location_search w) (callbackProcessed w) (iframes w)
    (status w) (userInfo w)
    match v with
    | VObj n => set_state_object (engine w) n (identityProvider w)
    | _ => v
    end
    (handleCallback_calls w) (engine w).

Definition count_handleCallback (w : Window) : Window :=
  mkWindow (localStorage w) (sessionStorage w) (location_href w)
    (location_origin w) (location_search w) (callbackProcessed w) (iframes w)
    (status w) (userInfo w) (identityProvider w) (S (handleCallback_calls w)) (engine w).

Definition localStorage_setItem (k v : string) : Window -> Window :=
  with_localStorage (insert k v).
Definition localStorage_removeItem (k : string) : Window -> Window :=
  with_localStorage (delete k).
Definition sessionStorage_setItem (k v : string) : Window -> Window :=
  with_sessionStorage (insert k v).
Definition sessionStorage_removeItem (k : string) : Window -> Window :=
  with_sessionStorage (delete k).

(** ** [URLSearchParams] *)

Module URLSearchParams.

Definition t : Type := list (string * string).

(** [params.get(name)]: the first value of that name, or [null]. *)
Definition get (name : string) (params : t) : option string := assoc name params.

(** Bytes left as they are by the application/x-www-form-urlencoded
    serializer: ASCII alphanumerics and [*], [-], [.], [_]. *)
Definition unreserved (c : ascii) : bool :=
  let n := nat_of_ascii c in
  (((48 <=? n) && (n <=? 57)) || ((65 <=? n) && (n <=? 90))
   || ((97 <=? n) && (n <=? 122))
   || (n =? 42) || (n =? 45) || (n =? 46) || (n =? 95))%nat.

Definition hex_digit (n : nat) : ascii :=
  ascii_of_nat (if (n <? 10)%nat then 48 + n else 55 + n).

Definition encode_byte (c : ascii) : string :=
  if unreserved c then String c EmptyString
  else if Ascii.eqb c " " then "+"
  else let n := nat_of_ascii c in
       String "%" (String (hex_digit (n / 16)) (String (hex_digit (n mod 16)) EmptyString)).

Fixpoint encode (s : string) : string :=
  match s with
  | EmptyString => EmptyString
  | String c s' => encode_byte c ++ encode s'
  end.

Definition encode_pair (kv : string * string) : string :=
  encode (fst kv) ++ "=" ++ encode (snd kv).

(** [params.toString()] *)
Fixpoint toString (params : t) : string :=
  match params with
  | [] => ""
  | [kv] => encode_pair kv
  | kv :: rest => encode_pair kv ++ "&" ++ toString rest
  end.

End URLSearchParams.

(** ** Asynchronous functions

    An [async] function runs on the window synchronously until it returns,
    throws, or awaits a [fetch].  A suspended call records the window as it
    left it and the request it issued; its continuation takes the response
    and the window as it is when the call is resumed. *)
Inductive task (A : Type) : Type :=
| Done (w : Window) (r : result A)
| AwaitToken (w : Window) (url : string) (body : URLSearchParams.t)
    (k : fetch_result tokens -> Window -> task A)
| AwaitUserInfo (w : Window) (url : string) (authorization : string)
    (k : fetch_result Claims.t -> Window -> task A).
Arguments Done {A} w r.
Arguments AwaitToken {A} w url body k.
Arguments AwaitUserInfo {A} w url authorization k.

(** The window as the task left it when it last stopped running. *)
Definition window_of {A} (t : task A) : Window :=
  match t with
  | Done w _ => w
  | AwaitToken w _ _ _ => w
  | AwaitUserInfo w _ _ _ => w
  end.

(** [const r = await t; ...] and [try { await t } catch ...]: the code that
    follows the completion (normal or not) of an awaited call. *)
Fixpoint bind {A B} (t : task A) (f : result A -> Window -> task B) : task B :=
  match t with
  | Done w r => f r w
  | AwaitToken w url body k =>
      AwaitToken w url body (fun resp w' => bind (k resp w') f)
  | AwaitUserInfo w url auth k =>
      AwaitUserInfo w url auth (fun resp w' => bind (k resp w') f)
  end.

(** The network: what each endpoint answers to a request. *)
Record Network : Type := mkNetwork {
  token_endpoint : string -> URLSearchParams.t -> fetch_result tokens;
  userinfo_endpoint : string -> string -> fetch_result Claims.t
}.

(** A call that runs to completion with nothing else scheduled in between:
    every request is answered at once by the network. *)
Fixpoint run {A} (net : Network) (t : task A) : Window * result A :=
  match t with
  | Done w r => (w, r)
  | AwaitToken w url body k => run net (k (token_endpoint net url body) w)
  | AwaitUserInfo w url auth k => run net (k (userinfo_endpoint net url auth) w)
  end.

(** The requests a call issues while it runs to completion. *)
Inductive request : Type :=
| TokenRequest (url : string) (body : URLSearchParams.t)
| UserInfoRequest (url : string) (authorization : string).

Fixpoint requests {A} (net : Network) (t : task A) : list request :=
  match t with
  | Done _ _ => []
  | AwaitToken w url body k =>
      TokenRequest url body :: requests net (k (token_endpoint net url body) w)
  | AwaitUserInfo w url auth k =>
      UserInfoRequest url auth :: requests net (k (userinfo_endpoint net url auth) w)
  end.

(** ** [class KeycloakProvider] *)

(** [process.env]: a setting is a string or is missing. *)
Record Env : Type := mkEnv {
  REACT_APP_KEYCLOAK_URL : option string;
  REACT_APP_KEYCLOAK_REALM : option string;
  REACT_APP_KEYCLOAK_CLIENT_ID : option string
}.

Record KeycloakProvider : Type := mkProvider {
  baseUrl : string;
  realm : string;
  clientId : string
}.

(** [constructor()] *)
Definition constructor (env : Env) : KeycloakProvider :=
  {| baseUrl := item_or (REACT_APP_KEYCLOAK_URL env) "http://localhost:8080/auth";
     realm := item_or (REACT_APP_KEYCLOAK_REALM env) "idp-redirector-demo";
     clientId := item_or (REACT_APP_KEYCLOAK_CLIENT_ID env) "react-oidc-app" |}.

(** [isConfigured()]: [!!(this.baseUrl && this.realm && this.clientId)] *)
Definition isConfigured (this : KeycloakProvider) : bool :=
  truthy (VStr (baseUrl this)) && truthy (VStr (realm this))
  && truthy (VStr (clientId this)).

(** [${this.baseUrl}/realms/${this.realm}/protocol/openid-connect/<name>] *)
Definition endpoint (this : KeycloakProvider) (name : string) : string :=
  baseUrl this ++ "/realms/" ++ realm this ++ "/protocol/openid-connect/" ++ name.

(** [normalizeUser(user)] *)
Definition normalizeUser (user : Claims.t) : User.t :=
  {| User.id := Claims.sub user;
     User.name := or_else (Claims.name user)
                    (or_else (Claims.preferred_username user) (VStr "Unknown User"));
     User.email := Claims.email user;
     User.picture := Claims.picture user;
     User.provider := VStr "keycloak" |}.

(** [clearLocalStorage()] *)
Definition clearLocalStorage (w : Window) : Window :=
  let w := localStorage_removeItem "access_token" w in
  let w := localStorage_removeItem "user_info" w in
  let w := localStorage_removeItem "auth_provider" w in
  let w := sessionStorage_removeItem "keycloak_code_verifier" w in
  let w := sessionStorage_removeItem "keycloak_id_token" w in
  if callbackProcessed w then set_callbackProcessed false w else w.

(** [performIdpSpecificLogout(identityProvider, idToken)] *)
Definition performIdpSpecificLogout (identityProvider idToken : option string)
    (w : Window) : Window :=
  if negb (truthy_item identityProvider) || negb (truthy_item idToken) then w
  else
    let idpLogoutUrl :=
      if bool_decide (identityProvider = Some "Google")
      then Some "https://accounts.google.com/logout"
      else if bool_decide (identityProvider = Some "Microsoft")
      then Some "https://login.microsoftonline.com/common/oauth2/v2.0/logout"
      else None in
    match idpLogoutUrl with
    | Some url => append_iframe url w
    | None => w
    end.

(** The first part of [handleCallback], up to the token request;
    [after_token] and [after_userinfo] are its two continuations. *)
Definition after_userinfo (this : KeycloakProvider) (tokens_ : tokens)
    (userResponse : fetch_result Claims.t) (w : Window) : task callback_result :=
  match userResponse with
  | Rejected e => Done w (Thrown e)
  | Response http_status errorData json =>
      if negb (ok http_status) then
        Done w (Thrown (Error ("Failed to get user info: " ++ pretty http_status
                               ++ " - " ++ errorData)))
      else
        match json with
        | None => Done w (Thrown (SyntaxError "Unexpected token in JSON"))
        | Some user =>
            (* Clean up *)
            let w := sessionStorage_removeItem "keycloak_code_verifier" w in
            Done w (Returned {| result_tokens := tokens_;
                                result_user := normalizeUser user |})
        end
  | ResponseNull http_status errorData =>
      if negb (ok http_status) then
        Done w (Thrown (Error ("Failed to get user info: " ++ pretty http_status
                               ++ " - " ++ errorData)))
      else
        (* Clean up *)
        let w := sessionStorage_removeItem "keycloak_code_verifier" w in
        (* [normalizeUser(null)] *)
        Done w (Thrown (TypeError "Cannot read properties of null (reading 'sub')"))
  end.

Definition after_token (this : KeycloakProvider)
    (tokenResponse : fetch_result tokens) (w : Window) : task callback_result :=
  match tokenResponse with
  | Rejected e => Done w (Thrown e)
  | Response http_status errorData json =>
      if negb (ok http_status) then
        Done w (Thrown (Error ("Token exchange failed: " ++ pretty http_status
                               ++ " - " ++ errorData)))
      else
        match json with
        | None => Done w (Thrown (SyntaxError "Unexpected token in JSON"))
        | Some tokens_ =>
            (* Store id_token for logout if available *)
            let w :=
              match id_token tokens_ with
              | Some t =>
                  if truthy (VStr t)
                  then sessionStorage_setItem "keycloak_id_token" t w
                  else w
              | None => w
              end in
            AwaitUserInfo w (endpoint this "userinfo")
              ("Bearer " ++ default "undefined" (access_token tokens_))
              (after_userinfo this tokens_)
        end
  | ResponseNull http_status errorData =>
      if negb (ok http_status) then
        Done w (Thrown (Error ("Token exchange failed: " ++ pretty http_status
                               ++ " - " ++ errorData)))
      else
        (* [tokens.id_token] with [tokens] null *)
        Done w (Thrown (TypeError "Cannot read properties of null (reading 'id_token')"))
  end.

(** [handleCallback(code, redirectUri)] *)
Definition handleCallback (this : KeycloakProvider) (code redirectUri : string)
    (w : Window) : task callback_result :=
  let codeVerifier := sessionStorage w !! "keycloak_code_verifier" in
  if negb (truthy_item codeVerifier) then
    Done w (Thrown (Error
      "PKCE code verifier not found. Please restart the authentication flow."))
  else
    let tokenParams :=
      [ ("grant_type", "authorization_code");
        ("client_id", clientId this);
        ("code", code);
        ("redirect_uri", redirectUri);
        ("code_verifier", default "" codeVerifier) ] in
    AwaitToken w (endpoint this "token") tokenParams (after_token this).

Section Platform.

(** [generateCodeChallenge] of [utils/pkce]: base64url of the SHA-256 digest
    of the verifier. *)
Variable generateCodeChallenge : string -> string.

(** [JSON.parse]: [None] when it throws a [SyntaxError]. *)
Variable JSON_parse : string -> option value.

(** [buildAuthUrl(redirectUri, scope = 'openid email profile',
    loginHint = null)].  [codeVerifier] is the string that
    [generateCodeVerifier()] of [utils/pkce] returns in this call. *)
Definition buildAuthUrl (this : KeycloakProvider) (codeVerifier : string)
    (redirectUri : string) (scope : option string) (loginHint : value)
    (w : Window) : Window * string :=
  let scope := default "openid email profile" scope in
  let loginHint := match loginHint with VUndefined => VNull | v => v end in
  let codeChallenge := generateCodeChallenge codeVerifier in
  (* Store code verifier for token exchange *)
  let w := sessionStorage_setItem "keycloak_code_verifier" codeVerifier w in
  let params :=
    [ ("response_type", "code");
      ("client_id", clientId this);
      ("redirect_uri", redirectUri);
      ("scope", scope);
      ("code_challenge", codeChallenge);
      ("code_challenge_method", "S256") ] in
  let params :=
    match loginHint with
    | VStr h =>
        if truthy loginHint && (String.eqb h "google" || String.eqb h "microsoft")
        then (params ++ [("kc_idp_hint", h)])%list
        else params
    | _ => params
    end in
  (w, endpoint this "auth" ++ "?" ++ URLSearchParams.toString params).

(** [login(redirectUri, loginHint = null)] *)
Definition login (this : KeycloakProvider) (codeVerifier : string)
    (redirectUri : string) (loginHint : value) (w : Window) : Window * result unit :=
  if negb (isConfigured this) then
    (w, Thrown (Error "Keycloak not configured"))
  else
    let '(w, authUrl) :=
      buildAuthUrl this codeVerifier redirectUri (Some "openid email profile")
        loginHint w in
    (set_href authUrl w, Returned tt).

(** [v.email] on a parsed JSON value: reading a property of [null] throws.
    The value read is only logged, so it is not tracked. *)
Definition get_email (v : value) : result value :=
  match v with
  | VUndefined | VNull =>
      Thrown (TypeError "Cannot read properties of null (reading 'email')")
  | _ => Returned VUndefined
  end.

(** The [try] block of [logout]. *)
Definition logout_try (this : KeycloakProvider) (w : Window) : Window * result unit :=
  (* Get stored tokens and user info for logout BEFORE clearing storage *)
  let idToken := sessionStorage w !! "keycloak_id_token" in
  match JSON_parse (item_or (localStorage w !! "user_info") "{}") with
  | None => (w, Thrown (SyntaxError "Unexpected token in JSON"))
  | Some userInfo_ =>
      let identityProvider_ := localStorage w !! "identity_provider" in
      match get_email userInfo_ with
      | Thrown e => (w, Thrown e)
      | Returned _ =>
          if truthy_item idToken then
            let logoutParams :=
              [ ("client_id", clientId this);
                ("id_token_hint", default "" idToken);
                ("post_logout_redirect_uri", location_origin w ++ "/") ] in
            let logoutUrl :=
              endpoint this "logout" ++ "?" ++ URLSearchParams.toString logoutParams in
            (* Clear local storage before redirect *)
            let w := clearLocalStorage w in
            let w := performIdpSpecificLogout identityProvider_ idToken w in
            (set_href logoutUrl w, Returned tt)
          else
            (* Clear local storage and redirect to home *)
            let w := clearLocalStorage w in
            (set_href "/" w, Returned tt)
      end
  end.

(** [logout()]: the [try] block and its [catch]. *)
Definition logout (this : KeycloakProvider) (w : Window) : Window * result unit :=
  match logout_try this w with
  | (w, Returned _) => (w, Returned tt)
  | (w, Thrown error) =>
      (* Fallback: clear storage and redirect to home *)
      let w := clearLocalStorage w in
      (set_href "/" w, Returned tt)
  end.

End Platform.

(** ** The [Callback] component *)

Module Callback.

(** [keycloakProvider.handleCallback], as opposed to the function of the
    same name that the effect defines below. *)
Local Abbreviation provider_handleCallback := handleCallback (only parsing).

(** The object literal [domainMappings] of [detectIdentityProvider]. *)
Definition domainMappings : list (string * string) :=
  [ ("gmail.com", "Google");
    ("googlemail.com", "Google");
    ("outlook.com", "Microsoft");
    ("hotmail.com", "Microsoft");
    ("live.com", "Microsoft");
    ("msn.com", "Microsoft") ].

(** ToString, as applied by [Storage.setItem] and by template literals; the
    text of an object or a function is the engine's. *)
Definition to_string (e : Engine) (v : value) : string :=
  match v with
  | VUndefined => "undefined"
  | VNull => "null"
  | VBool true => "true"
  | VBool false => "false"
  | VStr s => s
  | VObj n => object_text e n
  end.

(** [detectIdentityProvider(email)] *)
Definition detectIdentityProvider (email : value) : result value :=
  if negb (truthy email) then Returned VNull
  else
    match email with
    | VStr e =>
        let domain := email_domain e in
        Returned (or_else (get_literal domainMappings domain) (VStr "Unknown Provider"))
    | _ => Thrown (TypeError "email.split is not a function")
    end.

Section Platform.

(** [JSON.stringify] on the object built by [normalizeUser]. *)
Variable JSON_stringify : User.t -> string.

(** What the effect does once [keycloakProvider.handleCallback] has
    resolved to [result]: the rest of its [try] block, and its [catch]. *)
Definition store_result (result_ : callback_result) (w : Window) : Window :=
  (* Detect which identity provider was used *)
  match detectIdentityProvider (User.email (result_user result_)) with
  | Thrown error => setStatus ("Error: " ++ message error) w
  | Returned detectedProvider =>
      (* Store authentication result *)
      let w := localStorage_setItem "access_token"
                 (default "undefined" (access_token (result_tokens result_))) w in
      let w := localStorage_setItem "user_info" (JSON_stringify (result_user result_)) w in
      let w := localStorage_setItem "auth_provider" "keycloak" w in
      let w := localStorage_setItem "identity_provider"
                 (to_string (engine w) (or_else detectedProvider (VStr "Unknown"))) w in
      (* Store id_token for logout (if available) *)
      let w :=
        match id_token (result_tokens result_) with
        | Some t =>
            if truthy (VStr t)
            then sessionStorage_setItem "keycloak_id_token" t w
            else w
        | None => w
        end in
      (* Update UI state *)
      let w := setUserInfo (Some (result_user result_)) w in
      let w := setIdentityProvider detectedProvider w in
      setStatus (if truthy detectedProvider
                 then to_string (engine w) detectedProvider ++ " login successful!"
                 else "Login successful!") w
  end.

(** The function [handleCallback] that the effect of [Callback] defines and
    calls. *)
Definition handleCallback (keycloakProvider : KeycloakProvider) (w : Window) : task unit :=
  (* Prevent multiple executions *)
  if callbackProcessed w then Done w (Returned tt)
  else
    let w := set_callbackProcessed true w in
    let code := URLSearchParams.get "code" (location_search w) in
    let error := URLSearchParams.get "error" (location_search w) in
    if truthy_item error then
      Done (setStatus ("Error: " ++ default "" error) w) (Returned tt)
    else if negb (truthy_item code) then
      Done (setStatus "No authorization code received" w) (Returned tt)
    else
      let w := setStatus "Processing login..." w in
      (* Use Keycloak provider to handle callback *)
      let w := count_handleCallback w in
      bind (provider_handleCallback keycloakProvider (default "" code)
              (location_origin w ++ "/callback") w)
        (fun r w =>
           match r with
           | Returned result_ => Done (store_result result_ w) (Returned tt)
           | Thrown error =>
               Done (setStatus ("Error: " ++ message error) w) (Returned tt)
           end).

(** One page load of the callback route.  The page holds the window and the
    calls of the effect's function that are suspended on a request. *)
Record Page : Type := mkPage {
  window : Window;
  suspended : list (task unit)
}.

(** What happens on the page: React runs the effect, or the response to the
    request of the [i]-th suspended call arrives. *)
Inductive event : Type :=
| Effect
| TokenResponse (i : nat) (r : fetch_result tokens)
| UserInfoResponse (i : nat) (r : fetch_result Claims.t).

(** A call that has run as far as it can: its window becomes the window of
    the page, and it joins the suspended calls unless it is finished. *)
Definition settle (t : task unit) (others : list (task unit)) : Page :=
  match t with
  | Done w _ => mkPage w others
  | _ => mkPage (window_of t) (others ++ [t])%list
  end.

Definition step (keycloakProvider : KeycloakProvider) (p : Page) (e : event) : Page :=
  match e with
  | Effect => settle (handleCallback keycloakProvider (window p)) (suspended p)
  | TokenResponse i r =>
      match suspended p !! i with
      | Some (AwaitToken _ _ _ k) =>
          settle (k r (window p)) (delete i (suspended p))
      | _ => p
      end
  | UserInfoResponse i r =>
      match suspended p !! i with
      | Some (AwaitUserInfo _ _ _ k) =>
          settle (k r (window p)) (delete i (suspended p))
      | _ => p
      end
  end.

Definition steps (keycloakProvider : KeycloakProvider) (p : Page) (es : list event) : Page :=
  fold_left (step keycloakProvider) es p.

End Platform.

End Callback.

(** ** The [LoginButtons] component *)

Module LoginButtons.

Section Platform.

Variable JSON_parse : string -> option value.

(** Whether the effect that [LoginButtons] runs on mount restores a session
    and the component then renders the logged-in view
    ([isLoggedIn && userInfo]). *)
Definition isLoggedIn (w : Window) : bool :=
  let accessToken := localStorage w !! "access_token" in
  let storedUserInfo := localStorage w !! "user_info" in
  if truthy_item accessToken && truthy_item storedUserInfo then
    match JSON_parse (default "" storedUserInfo) with
    | Some user => truthy user
    | None => false
    end
  else false.

End Platform.

End LoginButtons.

(** ** The specification's wording, for comparison with the code *)

Module Spec.

(** The substring after the first [@], and the substring before it. *)
Fixpoint after_first_at (s : string) : option string :=
  match s with
  | EmptyString => None
  | String c s' => if Ascii.eqb c "@" then Some s' else after_first_at s'
  end.

Fixpoint before_first_at (s : string) : string :=
  match s with
  | EmptyString => EmptyString
  | String c s' => if Ascii.eqb c "@" then EmptyString else String c (before_first_at s')
  end.

(** "The substring after the last [@]"; [None] when there is no [@]. *)
Fixpoint after_last_at (s : string) : option string :=
  match s with
  | EmptyString => None
  | String c s' =>
      match after_last_at s' with
      | Some d => Some d
      | None => if Ascii.eqb c "@" then Some s' else None
      end
  end.

(** A lookup in the static table alone. *)
Definition table_hint (domain : string) : value :=
  match assoc domain domainMappings with
  | Some h => VStr h
  | None => VNull
  end.

(** "Lowercases the substring after the last [@], looks up a static mapping
    table, returns none if no entry matches; malformed email (no [@])
    yields none." *)
Definition hintForEmail (email : string) : value :=
  match after_last_at email with
  | Some d => table_hint (toLowerCase d)
  | None => VNull
  end.

Fixpoint contains (a : ascii) (s : string) : bool :=
  match s with
  | EmptyString => false
  | String c s' => Ascii.eqb c a || contains a s'
  end.

(** "Non-empty local part, [@], non-empty domain part containing at least
    one [.]". *)
Definition ValidEmail (email : string) : Prop :=
  exists local_ domain : string,
    email = local_ ++ "@" ++ domain /\ local_ <> "" /\ domain <> ""
    /\ contains "." domain = true.

(** "Present": the claim is there, whatever its value. *)
Definition present (v : value) : bool :=
  match v with
  | VUndefined => false
  | _ => true
  end.

(** "Map subject to id, prefer display name then preferred-username then a
    fallback literal, pass through email/picture; provider fixed to
    broker." *)
Definition normalize (fallback : string) (user : Claims.t) : User.t :=
  {| User.id := Claims.sub user;
     User.name := if present (Claims.name user) then Claims.name user
                  else if present (Claims.preferred_username user)
                       then Claims.preferred_username user
                       else VStr fallback;
     User.email := Claims.email user;
     User.picture := Claims.picture user;
     User.provider := VStr "broker" |}.

End Spec.

(** The piece of [email] that the router looks up: what lies between the
    first [@] and the next one (or the end). *)
Definition domain_piece (email : string) : option string :=
  match Spec.after_first_at email with
  | Some rest => Some (Spec.before_first_at rest)
  | None => None
  end.

(** A part of an address as the pattern of [isValidEmail] wants it: not
    empty, without white space and without [@]. *)
Fixpoint all_chars (p : ascii -> bool) (s : string) : bool :=
  match s with
  | EmptyString => true
  | String c s' => p c && all_chars p s'
  end.

Definition email_part (s : string) : Prop :=
  s <> "" /\ all_chars not_space_at s = true.

(** The [kc_idp_hint] part of the query string of the authorization URL,
    as it reads for a given login hint. *)
Definition idp_hint_query (loginHint : value) : string :=
  match loginHint with
  | VStr h =>
      if String.eqb h "google" then "&kc_idp_hint=google"
      else if String.eqb h "microsoft" then "&kc_idp_hint=microsoft"
      else ""
  | _ => ""
  end.

(** The five keys that [clearLocalStorage] removes are absent. *)
Definition cleared (w : Window) : Prop :=
  localStorage w !! "access_token" = None
  /\ localStorage w !! "user_info" = None
  /\ localStorage w !! "auth_provider" = None
  /\ sessionStorage w !! "keycloak_code_verifier" = None
  /\ sessionStorage w !! "keycloak_id_token" = None.

(** ** Scenarios *)

Module Scenario.

(** An engine in the manner of V8.  [Object.prototype.__proto__] reads as
    [Object.prototype], an object that is not a function: its text is
    "[object Object]" and a state setter keeps it.  The other members are
    native functions.  As an updater, [Object] returns the state when it is
    an object and a new object otherwise; the remaining functions are
    called without a receiver, where most of them throw, and are given here
    as leaving the state as it was.  The scenarios below reach none of
    this. *)
Definition engine : Engine :=
  {| object_text := fun n =>
       if String.eqb n "Object.prototype.constructor"
       then "function Object() { [native code] }"
       else if String.eqb n "Object.prototype.__proto__"
       then "[object Object]"
       else "function " ++ substring 17 (String.length n - 17) n
            ++ "() { [native code] }";
     set_state_object := fun n prev =>
       if String.eqb n "Object.prototype.__proto__" then VObj n
       else if String.eqb n "Object.prototype.constructor"
       then match prev with
            | VObj _ => prev
            | _ => VObj "Object"
            end
       else prev |}.

(** A window on the application at [origin], with the given storages. *)
Definition window_with (local_ session : gmap string string) : Window :=
  mkWindow local_ session "http://localhost:3000/callback?code=abc"
    "http://localhost:3000" [("code", "abc")] false [] "Processing..." None
    VNull 0 engine.

(** After a login through Google whose token response had no id token:
    the four keys written by the [Callback] component, no id token. *)
Definition signed_in_without_id_token : Window :=
  window_with
    (<["access_token" := "AT1"]>
       (<["user_info" := "{}"]>
          (<["auth_provider" := "keycloak"]>
             (<["identity_provider" := "Google"]> ∅))))
    ∅.

(** A login under way: the verifier is in [sessionStorage]. *)
Definition awaiting_callback : Window :=
  window_with ∅ (<["keycloak_code_verifier" := "v1"]> ∅).

Definition user_claims : Claims.t :=
  Claims.mk (VStr "u1") (VStr "U One") VUndefined (VStr "user@gmail.com")
    VUndefined.

(** The token endpoint answers 200 with both tokens; the userinfo endpoint
    answers with the given status. *)
Definition network (userinfo_status : nat) : Network :=
  {| token_endpoint := fun _ _ =>
       Response 200 "" (Some (mkTokens (Some "AT1") (Some "IT1")));
     userinfo_endpoint := fun _ _ =>
       Response userinfo_status "Unauthorized" (Some user_claims) |}.

Definition provider : KeycloakProvider := constructor (mkEnv None None None).

(** A [JSON.parse] that rejects every input, and one that accepts every
    input as an object. *)
Definition parse_none (s : string) : option value := None.
Definition parse_object (s : string) : option value := Some (VObj "Object").

(** After a login through Google, with an id token, and with an identity
    record that has since been corrupted: it is not JSON. *)
Definition corrupted_record : Window :=
  window_with
    (<["access_token" := "AT1"]>
       (<["user_info" := "{oops"]>
          (<["auth_provider" := "keycloak"]>
             (<["identity_provider" := "Google"]> ∅))))
    (<["keycloak_id_token" := "IT1"]> ∅).

(** A [JSON.parse] that reads the text of the empty object and throws on
    the corrupted record. *)
Definition parse_braces (s : string) : option value :=
  if String.eqb s "{}" then Some (VObj "Object") else None.

End Scenario.

(** ** The guard of the callback page *)

(** What the guard of [Callback] is about: the flag and the number of
    calls of [keycloakProvider.handleCallback] so far. *)
Definition guard (w : Window) : bool * nat :=
  (callbackProcessed w, handleCallback_calls w).

(** A task started on [from] is quiet when it leaves the guard as it found
    it, now and whenever it is resumed. *)
Fixpoint quiet {A} (from : Window) (t : task A) : Prop :=
  match t with
  | Done w _ => guard w = guard from
  | AwaitToken w _ _ k =>
      guard w = guard from /\ forall r w', quiet w' (k r w')
  | AwaitUserInfo w _ _ k =>
      guard w = guard from /\ forall r w', quiet w' (k r w')
  end.

(** A suspended call whose continuation is quiet. *)
Definition resumes_quietly {A} (t : task A) : Prop :=
  match t with
  | Done _ _ => True
  | AwaitToken _ _ _ k => forall r w', quiet w' (k r w')
  | AwaitUserInfo _ _ _ k => forall r w', quiet w' (k r w')
  end.

(** The invariant of a page load: the suspended calls resume quietly, the
    provider has not been called while the flag is unset, and it has been
    called at most once. *)
Definition page_ok (p : Callback.Page) : Prop :=
  Forall resumes_quietly (Callback.suspended p)
  /\ (callbackProcessed (Callback.window p) = false ->
      handleCallback_calls (Callback.window p) = 0)
  /\ handleCallback_calls (Callback.window p) <= 1.

(** The page after a few effects and responses, on a fresh page load. *)
Definition busy_page (JSON_stringify : User.t -> string) : Callback.Page :=
  Callback.steps JSON_stringify Scenario.provider
    (Callback.mkPage Scenario.awaiting_callback [])
    [ Callback.Effect; Callback.Effect;
      Callback.TokenResponse 0
        (Response 200 "" (Some (mkTokens (Some "AT1") (Some "IT1"))));
      Callback.Effect;
      Callback.UserInfoResponse 0 (Response 200 "" (Some Scenario.user_claims));
      Callback.Effect ].

(** A page load of the callback route in which the token response carries
    no id token, run until the login is complete. *)
Definition page_after_login (JSON_stringify : User.t -> string) : Callback.Page :=
  Callback.steps JSON_stringify Scenario.provider
    (Callback.mkPage Scenario.awaiting_callback [])
    [ Callback.Effect;
      Callback.TokenResponse 0 (Response 200 "" (Some (mkTokens (Some "AT1") None)));
      Callback.UserInfoResponse 0 (Response 200 "" (Some Scenario.user_claims)) ].

(** ** Further vocabulary for the properties of the provider *)

(** [null] or [undefined]. *)
Definition nullish (v : value) : bool :=
  match v with
  | VUndefined | VNull => true
  | _ => false
  end.

(** An object or a function, as opposed to a primitive value. *)
Definition is_object (v : value) : bool :=
  match v with
  | VObj _ => true
  | _ => false
  end.

(** The body of the token request of [handleCallback] for a verifier. *)
Definition token_request_body (this : KeycloakProvider)
    (code redirectUri codeVerifier : string) : URLSearchParams.t :=
  [ ("grant_type", "authorization_code");
    ("client_id", clientId this);
    ("code", code);
    ("redirect_uri", redirectUri);
    ("code_verifier", codeVerifier) ].

(** The window once [handleCallback] has looked at the id token of a token
    response. *)
Definition with_id_token (tk : tokens) (w : Window) : Window :=
  match id_token tk with
  | Some t =>
      if truthy (VStr t) then sessionStorage_setItem "keycloak_id_token" t w else w
  | None => w
  end.

(** The [Authorization] header of the userinfo request. *)
Definition bearer (tk : tokens) : string :=
  "Bearer " ++ default "undefined" (access_token tk).

(** The hidden frames that [performIdpSpecificLogout] adds for a provider
    label. *)
Definition idp_logout_frames (identityProvider : option string) : list string :=
  match identityProvider with
  | Some label =>
      if String.eqb label "Google" then ["https://accounts.google.com/logout"]
      else if String.eqb label "Microsoft"
      then ["https://login.microsoftonline.com/common/oauth2/v2.0/logout"]
      else []
  | None => []
  end.

(** The end-session URL that [logout] builds for an id token. *)
Definition end_session_url (this : KeycloakProvider) (origin idToken : string) : string :=
  endpoint this "logout"
  ++ "?client_id=" ++ URLSearchParams.encode (clientId this)
  ++ "&id_token_hint=" ++ URLSearchParams.encode idToken
  ++ "&post_logout_redirect_uri=" ++ URLSearchParams.encode (origin ++ "/").

(** The authorization URL that [login] builds. *)
Definition authorization_url (generateCodeChallenge : string -> string)
    (this : KeycloakProvider) (codeVerifier redirectUri : string)
    (loginHint : value) : string :=
  endpoint this "auth"
  ++ "?response_type=code"
  ++ "&client_id=" ++ URLSearchParams.encode (clientId this)
  ++ "&redirect_uri=" ++ URLSearchParams.encode redirectUri
  ++ "&scope=openid+email+profile"
  ++ "&code_challenge="
  ++ URLSearchParams.encode (generateCodeChallenge codeVerifier)
  ++ "&code_challenge_method=S256"
  ++ idp_hint_query loginHint.

(** Occurrences of a character in a string. *)
Fixpoint count_char (a : ascii) (s : string) : nat :=
  match s with
  | EmptyString => 0
  | String c s' => (if Ascii.eqb c a then 1 else 0) + count_char a s'
  end.

(** The characters that the form-urlencoded serializer can emit. *)
Definition query_safe (c : ascii) : bool :=
  URLSearchParams.unreserved c || Ascii.eqb c "+" || Ascii.eqb c "%".

(** ** [new URLSearchParams(string)] *)

Module QueryString.

Definition of_hex (c : ascii) : option nat :=
  let n := nat_of_ascii c in
  if ((48 <=? n) && (n <=? 57))%nat then Some (n - 48)
  else if ((65 <=? n) && (n <=? 70))%nat then Some (n - 55)
  else if ((97 <=? n) && (n <=? 102))%nat then Some (n - 87)
  else None.

(** The decoding of a name or a value: [+] is a space, [%XX] is the byte
    [XX], and a [%] that is not followed by two hexadecimal digits stands
    for itself. *)
Fixpoint decode (s : string) : string :=
  match s with
  | EmptyString => EmptyString
  | String c s' =>
      if Ascii.eqb c "%" then
        match s' with
        | String a (String b rest) =>
            match of_hex a, of_hex b with
            | Some x, Some y => String (ascii_of_nat (16 * x + y)) (decode rest)
            | _, _ => String c (decode s')
            end
        | _ => String c (decode s')
        end
      else if Ascii.eqb c "+" then String " " (decode s')
      else String c (decode s')
  end.

Fixpoint before_first (a : ascii) (s : string) : string :=
  match s with
  | EmptyString => EmptyString
  | String c s' => if Ascii.eqb c a then EmptyString else String c (before_first a s')
  end.

Fixpoint after_first (a : ascii) (s : string) : option string :=
  match s with
  | EmptyString => None
  | String c s' => if Ascii.eqb c a then Some s' else after_first a s'
  end.

(** One [name=value] sequence; without [=] the value is empty. *)
Definition parse_pair (piece : string) : string * string :=
  match after_first "=" piece with
  | Some v => (decode (before_first "=" piece), decode v)
  | None => (decode piece, "")
  end.

Definition non_empty (s : string) : bool := negb (String.eqb s "").

(** [new URLSearchParams(s)]: a leading [?] is dropped, the rest is split
    at [&], empty sequences are skipped. *)
Definition parse (s : string) : URLSearchParams.t :=
  let s := match s with
           | String c s' => if Ascii.eqb c "?" then s' else s
           | EmptyString => s
           end in
  map parse_pair (List.filter non_empty (split "&" s)).

End QueryString.

(** ** [String.prototype.trim], on ASCII *)

Fixpoint trimStart (s : string) : string :=
  match s with
  | EmptyString => EmptyString
  | String c s' => if is_space c then trimStart s' else s
  end.

Fixpoint trimEnd (s : string) : string :=
  match s with
  | EmptyString => EmptyString
  | String c s' =>
      match trimEnd s' with
      | EmptyString => if is_space c then EmptyString else String c EmptyString
      | t => String c t
      end
  end.

Definition trim (s : string) : string := trimEnd (trimStart s).

(** ** The [LoginButtons] component, with its state *)

Module LoginPage.

(** The window, the React state of the component ([email], [isLoggedIn],
    [userInfo]) and the messages shown with [alert]. *)
Record View : Type := mkView {
  view_window : Window;
  email : string;
  alerts : list string;
  isLoggedIn : bool;
  userInfo : option value
}.

Definition alert (msg : string) (v : View) : View :=
  mkView (view_window v) (email v) (alerts v ++ [msg])%list (isLoggedIn v) (userInfo v).

Definition with_window (w : Window) (v : View) : View :=
  mkView w (email v) (alerts v) (isLoggedIn v) (userInfo v).

(** The component renders the welcome page: [isLoggedIn && userInfo]. *)
Definition shows_welcome (v : View) : bool :=
  isLoggedIn v && match userInfo v with
                  | Some u => truthy u
                  | None => false
                  end.

Section Platform.

Variable generateCodeChallenge : string -> string.
Variable JSON_parse : string -> option value.

(** The effect that runs on mount. *)
Definition mount (v : View) : View :=
  (* Check if user is already logged in *)
  let accessToken := localStorage (view_window v) !! "access_token" in
  let storedUserInfo := localStorage (view_window v) !! "user_info" in
  if truthy_item accessToken && truthy_item storedUserInfo then
    match JSON_parse (default "" storedUserInfo) with
    | Some user =>
        mkView (view_window v) (email v) (alerts v) true (Some user)
    | None =>
        (* Clear invalid data *)
        let w := localStorage_removeItem "access_token" (view_window v) in
        let w := localStorage_removeItem "user_info" w in
        with_window w v
    end
  else v.

(** [handleLogin()].  [codeVerifier] is what [generateCodeVerifier()]
    returns if [login] gets to call it. *)
Definition handleLogin (keycloakProvider : KeycloakProvider)
    (codeVerifier : string) (v : View) : View :=
  if negb (isConfigured keycloakProvider) then
    alert "Keycloak is not configured. Please check your environment variables." v
  else
    let REDIRECT_URI := location_origin (view_window v) ++ "/callback" in
    let attempt (loginHint : value) : View :=
      match login generateCodeChallenge keycloakProvider codeVerifier
              REDIRECT_URI loginHint (view_window v) with
      | (w, Returned _) => with_window w v
      | (w, Thrown error) =>
          alert ("Failed to initiate login: " ++ message error) (with_window w v)
      end in
    (* If email is provided, determine the IDP hint *)
    if truthy (VStr (trim (email v))) then
      if negb (isValidEmail (trim (email v))) then
        alert "Please enter a valid email address" v
      else
        attempt (determineLoginHintFromEmail (trim (email v)))
    else attempt VNull.

(** [handleLogout()] *)
Definition handleLogout (keycloakProvider : KeycloakProvider) (v : View) : View :=
  match logout JSON_parse keycloakProvider (view_window v) with
  | (w, Returned _) =>
      (* Clear local state *)
      mkView w (email v) (alerts v) false None
  | (w, Thrown error) =>
      (* Still clear local state even if provider logout fails *)
      mkView (clearLocalStorage w) (email v) (alerts v) false None
  end.

End Platform.

End LoginPage.

(** The window on which the effect of [Callback] calls the provider: flag
    set, status "Processing login...", one more call counted. *)
Definition entered (w : Window) : Window :=
  count_handleCallback
    (setStatus "Processing login..." (set_callbackProcessed true w)).

(** The redirect URI that the effect of [Callback] passes. *)
Definition callback_uri (w : Window) : string := location_origin w ++ "/callback".

(** ** [handleLogout] of the [Callback] component *)

Module CallbackLogout.

Section Platform.

Variable JSON_parse : string -> option value.

(** [handleLogout()]: the window when the function is done, and whether it
    has scheduled its fallback with [setTimeout]. *)
Definition handleLogout (keycloakProvider : KeycloakProvider) (w : Window)
    : Window * bool :=
  (* Show detailed logout status *)
  let w := setStatus ("Logging out from "
                      ++ Callback.to_string (engine w) (identityProvider w)
                      ++ "...") w in
  match logout JSON_parse keycloakProvider w with
  | (w, Returned _) => (w, false)
  | (w, Thrown error) => (setStatus "Logout error, redirecting..." w, true)
  end.

(** The fallback that the timer runs after a second. *)
Definition fallback (w : Window) : Window :=
  set_href "/" (clearLocalStorage w).

End Platform.

End CallbackLogout.

(** A view of [LoginButtons] as it is before its effect has run. *)
Definition fresh_view (w : Window) : LoginPage.View :=
  LoginPage.mkView w "" [] false None.

(** ** Further scenarios *)

Module Cases.

(** A token endpoint that refuses the code. *)
Definition refusing : Network :=
  {| token_endpoint := fun _ _ => Response 400 "invalid_grant" None;
     userinfo_endpoint := fun _ _ => Rejected (TypeError "Failed to fetch") |}.

(** A userinfo endpoint that answers 200 with the JSON text [null]. *)
Definition null_userinfo : Network :=
  {| token_endpoint := fun _ _ =>
       Response 200 "" (Some (mkTokens (Some "AT1") (Some "IT1")));
     userinfo_endpoint := fun _ _ => ResponseNull 200 "null" |}.

(** After a login through Google with an id token. *)
Definition signed_in : Window :=
  Scenario.window_with
    (<["access_token" := "AT1"]>
       (<["user_info" := "{}"]>
          (<["auth_provider" := "keycloak"]>
             (<["identity_provider" := "Google"]> ∅))))
    (<["keycloak_id_token" := "IT1"]> ∅).

(** An access token with an identity record that is not JSON. *)
Definition corrupted : Window :=
  Scenario.window_with
    (<["access_token" := "AT1"]>
       (<["user_info" := "{oops"]> (<["auth_provider" := "keycloak"]> ∅)))
    ∅.

Definition both_tokens : tokens := mkTokens (Some "AT1") (Some "IT1").

Definition callback_uri : string := "http://localhost:3000/callback".

Definition stringify (u : User.t) : string := "{}".

(** The login form with an address typed in. *)
Definition typed (address : string) : LoginPage.View :=
  LoginPage.mkView (Scenario.window_with ∅ ∅) address [] false None.

End Cases.

(** * Properties *)

(** ** Strings and lists of characters *)

Lemma list_of_append (a b : string) :
  list_ascii_of_string (a ++ b)
  = (list_ascii_of_string a ++ list_ascii_of_string b)%list.
Proof. induction a as [|c a IH]; simpl; [reflexivity | now rewrite IH]. Qed.

Lemma string_of_app (u v : list ascii) :
  string_of_list_ascii (u ++ v)%list
  = string_of_list_ascii u ++ string_of_list_ascii v.
Proof. induction u as [|c u IH]; simpl; [reflexivity | now rewrite IH]. Qed.

Lemma all_chars_forallb (p : ascii -> bool) (s : string) :
  all_chars p s = forallb p (list_ascii_of_string s).
Proof. induction s as [|c s IH]; simpl; [reflexivity | now rewrite IH]. Qed.

Lemma string_nil_iff (s : string) : s = "" <-> list_ascii_of_string s = [].
Proof. destruct s; simpl; split; intros H; congruence. Qed.

(** ** The derivative matcher decides the language of a pattern *)

Module RegexFacts.
Import Regex.

Lemma nullable_spec (r : regex) : nullable r = true <-> Matches r [].
Proof.
  induction r as [| |p|r1 IH1 r2 IH2|r1 IH1 r2 IH2|r IH]; simpl.
  - split; [discriminate | intros H; inversion H].
  - split; [intros _; constructor | reflexivity].
  - split; [discriminate | intros H; inversion H].
  - rewrite andb_true_iff, IH1, IH2. split.
    + intros [H1 H2]. exact (MCat _ _ [] [] H1 H2).
    + intros H. inversion H as [| |? ? w1 w2 H1 H2 E1 E2| | | |]; subst.
      apply app_eq_nil in E2 as [-> ->]. now split.
  - rewrite orb_true_iff, IH1, IH2. split.
    + intros [H|H]; [now apply MAltL | now apply MAltR].
    + intros H. inversion H; subst; [now left | now right].
  - split; [intros _; constructor | reflexivity].
Qed.

Lemma star_cons_inv (r : regex) (c : ascii) (w : list ascii) :
  Matches (Star r) (c :: w) ->
  exists w1 w2, w = (w1 ++ w2)%list /\ Matches r (c :: w1) /\ Matches (Star r) w2.
Proof.
  intros H. remember (Star r) as s eqn:Es. remember (c :: w) as cw eqn:Ew.
  revert c w Ew.
  induction H as [| | | | | |r' w1 w2 H1 _ H2 IH2]; intros a v Ev;
    try discriminate.
  injection Es as ->.
  destruct w1 as [|c1 w1]; simpl in Ev.
  - apply IH2; [reflexivity | exact Ev].
  - injection Ev as <- <-. now exists w1, w2.
Qed.

Lemma deriv_sound (c : ascii) (r : regex) :
  forall w, Matches (deriv c r) w -> Matches r (c :: w).
Proof.
  induction r as [| |p|r1 IH1 r2 IH2|r1 IH1 r2 IH2|r IH]; simpl; intros w H.
  - inversion H.
  - inversion H.
  - destruct (p c) eqn:Ep; inversion H; subst. now constructor.
  - destruct (nullable r1) eqn:En.
    + inversion H as [| | |? ? ? HL|? ? ? HR| |]; subst.
      * inversion HL as [| |? ? w1 w2 H1 H2| | | |]; subst.
        exact (MCat _ _ (c :: w1) w2 (IH1 _ H1) H2).
      * apply nullable_spec in En.
        exact (MCat _ _ [] (c :: w) En (IH2 _ HR)).
    + inversion H as [| |? ? w1 w2 H1 H2| | | |]; subst.
      exact (MCat _ _ (c :: w1) w2 (IH1 _ H1) H2).
  - inversion H; subst; [apply MAltL | apply MAltR]; auto.
  - inversion H as [| |? ? w1 w2 H1 H2| | | |]; subst.
    exact (MStarCons _ (c :: w1) w2 (IH _ H1) H2).
Qed.

Lemma deriv_complete (c : ascii) (r : regex) :
  forall w, Matches r (c :: w) -> Matches (deriv c r) w.
Proof.
  induction r as [| |p|r1 IH1 r2 IH2|r1 IH1 r2 IH2|r IH]; simpl; intros w H.
  - inversion H.
  - inversion H.
  - inversion H as [|? ? Hp| | | | |]; subst. rewrite Hp. constructor.
  - inversion H as [| |? ? w1 w2 H1 H2 E1 E2| | | |]; subst.
    destruct w1 as [|c1 w1]; simpl in E2.
    + subst w2. apply nullable_spec in H1. rewrite H1. apply MAltR. auto.
    + injection E2 as <- <-.
      destruct (nullable r1); [apply MAltL |]; constructor; auto.
  - inversion H; subst; [apply MAltL | apply MAltR]; auto.
  - apply star_cons_inv in H as (w1 & w2 & -> & H1 & H2).
    constructor; auto.
Qed.

Lemma accepts_spec (w : list ascii) :
  forall r, accepts r w = true <-> Matches r w.
Proof.
  induction w as [|c w IH]; intros r; simpl.
  - apply nullable_spec.
  - rewrite IH. split; [apply deriv_sound | apply deriv_complete].
Qed.

Lemma star_class (p : ascii -> bool) (w : list ascii) :
  Matches (Star (Class p)) w <-> forallb p w = true.
Proof.
  split.
  - intros H. remember (Star (Class p)) as s eqn:Es.
    induction H as [| | | | | |r w1 w2 H1 _ _ IH2]; try discriminate.
    + reflexivity.
    + injection Es as ->. inversion H1; subst. simpl.
      rewrite IH2 by reflexivity. now rewrite H0.
  - induction w as [|c w IH]; simpl; intros H.
    + constructor.
    + apply andb_true_iff in H as [Hc Hw].
      exact (MStarCons _ [c] w (MClass _ _ Hc) (IH Hw)).
Qed.

Lemma plus_class (p : ascii -> bool) (w : list ascii) :
  Matches (Plus (Class p)) w <-> w <> [] /\ forallb p w = true.
Proof.
  unfold Plus. split.
  - intros H. inversion H as [| |? ? w1 w2 H1 H2| | | |]; subst.
    inversion H1; subst. simpl. apply star_class in H2.
    split; [discriminate | now rewrite H2, H3].
  - intros [Hn Hw]. destruct w as [|c w]; [congruence |].
    simpl in Hw. apply andb_true_iff in Hw as [Hc Hw].
    exact (MCat _ _ [c] w (MClass _ _ Hc) (proj2 (star_class p w) Hw)).
Qed.

Lemma class_char (a : ascii) (w : list ascii) :
  Matches (Class (is_char a)) w <-> w = [a].
Proof.
  split.
  - intros H. inversion H as [|? c Hc| | | | |]; subst.
    unfold is_char in Hc. apply Ascii.eqb_eq in Hc. now subst.
  - intros ->. constructor. unfold is_char. apply Ascii.eqb_refl.
Qed.

End RegexFacts.

(** ** [isValidEmail] *)

Lemma emailRegex_language (w : list ascii) :
  Regex.Matches emailRegex w <->
  exists l d1 d2 : list ascii,
    w = (l ++ "@"%char :: d1 ++ "."%char :: d2)%list
    /\ (l <> [] /\ forallb not_space_at l = true)
    /\ (d1 <> [] /\ forallb not_space_at d1 = true)
    /\ (d2 <> [] /\ forallb not_space_at d2 = true).
Proof.
  unfold emailRegex. split.
  - intros H.
    inversion H as [| |? ? l x1 Hl H1| | | |]; subst.
    inversion H1 as [| |? ? a x2 Ha H2| | | |]; subst.
    inversion H2 as [| |? ? d1 x3 Hd1 H3| | | |]; subst.
    inversion H3 as [| |? ? b d2 Hb Hd2| | | |]; subst.
    apply RegexFacts.class_char in Ha, Hb. subst a b.
    apply RegexFacts.plus_class in Hl, Hd1, Hd2.
    now exists l, d1, d2.
  - intros (l & d1 & d2 & -> & Hl & Hd1 & Hd2).
    apply RegexFacts.plus_class in Hl, Hd1, Hd2.
    apply Regex.MCat; [exact Hl |].
    apply (Regex.MCat _ _ ["@"%char]); [now apply RegexFacts.class_char |].
    apply Regex.MCat; [exact Hd1 |].
    apply (Regex.MCat _ _ ["."%char]); [now apply RegexFacts.class_char |].
    exact Hd2.
Qed.

Lemma email_part_list (s : string) :
  email_part s <->
  list_ascii_of_string s <> [] /\ forallb not_space_at (list_ascii_of_string s) = true.
Proof.
  unfold email_part. rewrite all_chars_forallb, string_nil_iff. reflexivity.
Qed.

Lemma isValidEmail_shape (email : string) :
  isValidEmail email = true <->
  exists local_ name tld : string,
    email = local_ ++ "@" ++ name ++ "." ++ tld
    /\ email_part local_ /\ email_part name /\ email_part tld.
Proof.
  unfold isValidEmail, Regex.test.
  rewrite RegexFacts.accepts_spec, emailRegex_language. split.
  - intros (l & d1 & d2 & E & Hl & Hd1 & Hd2).
    exists (string_of_list_ascii l), (string_of_list_ascii d1),
      (string_of_list_ascii d2).
    rewrite !email_part_list, !list_ascii_of_string_of_list_ascii.
    split; [| now repeat split].
    rewrite <- (string_of_list_ascii_of_string email), E.
    rewrite string_of_app. simpl. rewrite string_of_app. reflexivity.
  - intros (l & d1 & d2 & -> & Hl & Hd1 & Hd2).
    apply email_part_list in Hl, Hd1, Hd2.
    exists (list_ascii_of_string l), (list_ascii_of_string d1),
      (list_ascii_of_string d2).
    split; [| now repeat split].
    rewrite !list_of_append. reflexivity.
Qed.

(** C5 (as amended).  On an ASCII string, [isValidEmail] answers true
    exactly when the string is [local@name.tld] where each of the three
    parts is non-empty and free of white space and of [@]: one [@] only, no
    white space anywhere, and a dot in the domain that has at least one
    character on each side.  "a@b.com" is valid, "invalid" is not. *)
Theorem isValidEmail_characterised (email : string) :
  is_ascii email = true ->
  (isValidEmail email = true <->
   exists local_ name tld : string,
     email = local_ ++ "@" ++ name ++ "." ++ tld
     /\ email_part local_ /\ email_part name /\ email_part tld)
  /\ isValidEmail "a@b.com" = true
  /\ isValidEmail "invalid" = false.
Proof.
  intros _. split; [apply isValidEmail_shape | split; reflexivity].
Qed.

Lemma isValidEmail_characterised_witness :
  is_ascii "a@b.com" = true
  /\ exists local_ name tld : string,
       "a@b.com" = local_ ++ "@" ++ name ++ "." ++ tld
       /\ email_part local_ /\ email_part name /\ email_part tld.
Proof.
  split; [reflexivity |].
  apply (proj1 (isValidEmail_characterised "a@b.com" eq_refl)).
  reflexivity.
Defined.

(** C5 (as stated) fails: "a@.com" has a non-empty local part, an [@] and
    a non-empty domain part that contains a dot, and [isValidEmail]
    rejects it. *)
Lemma isValidEmail_not_structural :
  ~ (isValidEmail "a@.com" = true <-> Spec.ValidEmail "a@.com").
Proof.
  intros [_ H].
  assert (Hv : Spec.ValidEmail "a@.com").
  { exists "a", ".com". repeat split; discriminate. }
  specialize (H Hv). discriminate H.
Qed.

(** ** [determineLoginHintFromEmail] *)

Lemma split_head (s : string) :
  index (split "@" s) 0 = Some (Spec.before_first_at s).
Proof.
  induction s as [|c s IH]; simpl; [reflexivity |].
  destruct (Ascii.eqb c "@"); [reflexivity |].
  unfold index in IH. destruct (split "@" s) as [|p ps]; simpl in *.
  - discriminate IH.
  - now injection IH as ->.
Qed.

Lemma split_second (s : string) :
  index (split "@" s) 1 = domain_piece s.
Proof.
  unfold domain_piece.
  induction s as [|c s IH]; simpl; [reflexivity |].
  destruct (Ascii.eqb c "@").
  - apply (split_head s).
  - pose proof (split_head s) as Hh. unfold index in *.
    destruct (split "@" s) as [|p ps]; simpl in *; [discriminate Hh | exact IH].
Qed.

Lemma email_domain_piece (email : string) :
  email_domain email = toLowerCase <$> domain_piece email.
Proof.
  unfold email_domain. rewrite split_second.
  now destruct (domain_piece email).
Qed.

Lemma no_at_no_piece (email : string) :
  Spec.contains "@" email = false -> domain_piece email = None.
Proof.
  unfold domain_piece.
  induction email as [|c s IH]; simpl; [reflexivity |].
  destruct (Ascii.eqb c "@"); simpl; [discriminate | exact IH].
Qed.

Lemma domainMappings_truthy (k v : string) :
  assoc k domainMappings = Some v -> truthy (VStr v) = true.
Proof.
  unfold domainMappings. simpl.
  repeat (destruct (String.eqb k _); [now intros [= <-] |]).
  discriminate.
Qed.

Lemma hint_of_key (k : string) :
  mem k object_prototype_members = false ->
  or_else (get_literal domainMappings (Some k)) VNull = Spec.table_hint k.
Proof.
  intros Hm. unfold get_literal, Spec.table_hint.
  destruct (assoc k domainMappings) as [v|] eqn:Ea.
  - unfold or_else. now rewrite (domainMappings_truthy k v Ea).
  - now rewrite Hm.
Qed.

(** On an address that [isValidEmail] accepts there is one [@] only, and
    the piece looked up is the whole domain: what follows the last [@]. *)

Lemma clean_no_at (s : string) :
  all_chars not_space_at s = true -> Spec.contains "@" s = false.
Proof.
  induction s as [|c s IH]; simpl; [reflexivity |].
  intros H. apply andb_true_iff in H as [Hc Hs].
  unfold not_space_at in Hc. apply negb_true_iff, orb_false_iff in Hc as [_ Hc].
  now rewrite Hc, IH.
Qed.

Lemma contains_append (a : ascii) (s t : string) :
  Spec.contains a (s ++ t) = Spec.contains a s || Spec.contains a t.
Proof.
  induction s as [|c s IH]; simpl; [reflexivity |].
  now rewrite IH, orb_assoc.
Qed.

Lemma all_chars_append (p : ascii -> bool) (s t : string) :
  all_chars p (s ++ t) = all_chars p s && all_chars p t.
Proof.
  induction s as [|c s IH]; simpl; [reflexivity |].
  now rewrite IH, andb_assoc.
Qed.

Lemma after_first_at_append (l rest : string) :
  Spec.contains "@" l = false ->
  Spec.after_first_at (l ++ "@" ++ rest) = Some rest.
Proof.
  induction l as [|c l IH]; simpl; [reflexivity |].
  intros H. apply orb_false_iff in H as [Hc Hl]. rewrite Hc. now apply IH.
Qed.

Lemma before_first_at_clean (d : string) :
  Spec.contains "@" d = false -> Spec.before_first_at d = d.
Proof.
  induction d as [|c d IH]; simpl; [reflexivity |].
  intros H. apply orb_false_iff in H as [Hc Hd]. rewrite Hc. now rewrite IH.
Qed.

Lemma after_last_at_clean (d : string) :
  Spec.contains "@" d = false -> Spec.after_last_at d = None.
Proof.
  induction d as [|c d IH]; simpl; [reflexivity |].
  intros H. apply orb_false_iff in H as [Hc Hd]. now rewrite IH, Hc.
Qed.

Lemma after_last_at_append (l d : string) :
  Spec.contains "@" l = false -> Spec.contains "@" d = false ->
  Spec.after_last_at (l ++ "@" ++ d) = Some d.
Proof.
  intros Hl Hd. induction l as [|c l IH]; simpl.
  - now rewrite after_last_at_clean.
  - simpl in Hl. apply orb_false_iff in Hl as [_ Hl]. now rewrite IH.
Qed.

Lemma contains_dot_lower (s : string) :
  Spec.contains "." s = true -> Spec.contains "." (toLowerCase s) = true.
Proof.
  induction s as [|c s IH]; simpl; [discriminate |].
  intros H. apply orb_true_iff in H as [Hc|Hs].
  - apply Ascii.eqb_eq in Hc. subst c. reflexivity.
  - rewrite (IH Hs). apply orb_true_r.
Qed.

Lemma dotted_not_inherited (k : string) :
  Spec.contains "." k = true -> mem k object_prototype_members = false.
Proof.
  intros Hk. destruct (mem k object_prototype_members) eqn:Em; [| reflexivity].
  unfold mem, object_prototype_members in Em. simpl in Em.
  repeat (apply orb_true_iff in Em as [Em|Em];
          [apply String.eqb_eq in Em; subst k; discriminate Hk |]).
  discriminate Em.
Qed.

Lemma valid_email_domain (email : string) :
  isValidEmail email = true ->
  exists domain : string,
    domain_piece email = Some domain
    /\ Spec.after_last_at email = Some domain
    /\ Spec.contains "." domain = true.
Proof.
  intros H. apply isValidEmail_shape in H
    as (l & d1 & d2 & -> & [_ Hl] & [_ Hd1] & [_ Hd2]).
  exists (d1 ++ "." ++ d2).
  assert (Hd : Spec.contains "@" (d1 ++ "." ++ d2) = false).
  { rewrite !contains_append, (clean_no_at d1 Hd1), (clean_no_at d2 Hd2).
    reflexivity. }
  pose proof (clean_no_at l Hl) as Hl'.
  split; [| split].
  - unfold domain_piece. rewrite after_first_at_append by exact Hl'.
    now rewrite before_first_at_clean.
  - now apply after_last_at_append.
  - rewrite !contains_append. simpl. apply orb_true_r.
Qed.

(** C4 (as amended).  On an ASCII string, [determineLoginHintFromEmail]
    never fails, and an email without [@] yields [null].  Otherwise it
    lowercases the piece between the first [@] and the next [@] (or the end
    of the string) and, provided that the lowercased piece is not the name
    of a member of [Object.prototype] (such as "constructor"), it returns
    what the static table has for it, [null] when the table has no entry.
    On an address that [isValidEmail] accepts, that piece is what follows
    the last [@], and the result is the table's hint for it, lowercased. *)
Theorem determineLoginHintFromEmail_by_table (email : string) :
  is_ascii email = true ->
  (Spec.contains "@" email = false -> determineLoginHintFromEmail email = VNull)
  /\ (forall piece : string,
        domain_piece email = Some piece ->
        mem (toLowerCase piece) object_prototype_members = false ->
        determineLoginHintFromEmail email = Spec.table_hint (toLowerCase piece))
  /\ (isValidEmail email = true ->
      determineLoginHintFromEmail email = Spec.hintForEmail email)
  /\ determineLoginHintFromEmail "user@gmail.com" = VStr "google"
  /\ determineLoginHintFromEmail "user@outlook.com" = VStr "microsoft"
  /\ determineLoginHintFromEmail "user@example.org" = VNull
  /\ determineLoginHintFromEmail "not-an-email" = VNull.
Proof.
  intros _.
  assert (Hp : forall piece : string,
             domain_piece email = Some piece ->
             mem (toLowerCase piece) object_prototype_members = false ->
             determineLoginHintFromEmail email = Spec.table_hint (toLowerCase piece)).
  { intros piece Hp Hm. unfold determineLoginHintFromEmail.
    rewrite email_domain_piece, Hp. simpl. now apply hint_of_key. }
  split; [| split; [exact Hp | split; [| repeat split]]].
  - intros Hn. unfold determineLoginHintFromEmail.
    now rewrite email_domain_piece, (no_at_no_piece email Hn).
  - intros Hv. apply valid_email_domain in Hv as (d & Hd & Hl & Hdot).
    unfold Spec.hintForEmail. rewrite Hl. apply Hp; [exact Hd |].
    apply dotted_not_inherited, contains_dot_lower, Hdot.
Qed.

Lemma determineLoginHintFromEmail_by_table_witness :
  determineLoginHintFromEmail "Jo@Live.COM" = Spec.table_hint "live.com"
  /\ determineLoginHintFromEmail "Jo@Live.COM" = Spec.hintForEmail "Jo@Live.COM".
Proof.
  split.
  - exact (proj1 (proj2 (determineLoginHintFromEmail_by_table "Jo@Live.COM" eq_refl))
             "Live.COM" eq_refl eq_refl).
  - exact (proj1 (proj2 (proj2 (determineLoginHintFromEmail_by_table "Jo@Live.COM"
                                  eq_refl))) eq_refl).
Defined.

(** C4 (as stated) fails: with two [@] the code looks up what lies between
    them, not what follows the last one. *)
Lemma determineLoginHintFromEmail_not_last_at :
  determineLoginHintFromEmail "a@b@gmail.com" = VNull
  /\ Spec.hintForEmail "a@b@gmail.com" = VStr "google".
Proof. split; reflexivity. Qed.

(** A piece that names a member of [Object.prototype] is outside the
    statement above: the lookup [domainMappings[domain]] then finds the
    inherited member, here the function [Object], where the table alone has
    nothing. *)
Example determineLoginHintFromEmail_inherited_member :
  determineLoginHintFromEmail "x@constructor"
  = VObj "Object.prototype.constructor"
  /\ is_object (determineLoginHintFromEmail "x@constructor") = true
  /\ Spec.hintForEmail "x@constructor" = VNull
  /\ isValidEmail "x@constructor" = false.
Proof. repeat split. Qed.

(** ** [normalizeUser] *)

(** C8 (as amended).  The record built from the userinfo claims has the
    [sub] claim as [id]; as [name] the [name] claim when it is truthy,
    otherwise the [preferred_username] claim when it is truthy, otherwise
    "Unknown User"; [email] and [picture] unchanged; and the constant
    "keycloak" as [provider], whatever the claims. *)
Theorem normalizeUser_fields (user other : Claims.t) :
  User.id (normalizeUser user) = Claims.sub user
  /\ User.name (normalizeUser user)
     = (if truthy (Claims.name user) then Claims.name user
        else if truthy (Claims.preferred_username user)
             then Claims.preferred_username user
             else VStr "Unknown User")
  /\ User.email (normalizeUser user) = Claims.email user
  /\ User.picture (normalizeUser user) = Claims.picture user
  /\ User.provider (normalizeUser user) = VStr "keycloak"
  /\ User.provider (normalizeUser user) = User.provider (normalizeUser other).
Proof. unfold normalizeUser, or_else; simpl. repeat split. Qed.

(** C8 (as stated) fails: the provider field is "keycloak", not "broker",
    and a display name that is present but empty is passed over. *)
Lemma normalizeUser_not_broker :
  let user := Claims.mk (VStr "u1") (VStr "") (VStr "bob")
                (VStr "bob@example.org") VUndefined in
  User.provider (normalizeUser user) <> VStr "broker"
  /\ User.provider (normalizeUser user)
     <> User.provider (Spec.normalize "Unknown User" user)
  /\ Spec.present (Claims.name user) = true
  /\ User.name (normalizeUser user) <> Claims.name user.
Proof. simpl. repeat split; discriminate. Qed.

(** ** [constructor], [isConfigured] and [login] *)

Lemma item_or_truthy (o : option string) (d : string) :
  d <> "" -> truthy (VStr (item_or o d)) = true.
Proof.
  intros Hd. unfold item_or, truthy.
  destruct o as [s|].
  - destruct (String.eqb s "") eqn:E; [| now rewrite E].
    apply negb_true_iff, String.eqb_neq, Hd.
  - apply negb_true_iff, String.eqb_neq, Hd.
Qed.

Lemma isConfigured_constructor (env : Env) : isConfigured (constructor env) = true.
Proof.
  unfold isConfigured, constructor. cbn [baseUrl realm clientId].
  rewrite !item_or_truthy by discriminate. reflexivity.
Qed.

Lemma buildAuthUrl_window (gen : string -> string) (this : KeycloakProvider)
    (codeVerifier redirectUri : string) (scope : option string)
    (loginHint : value) (w : Window) :
  fst (buildAuthUrl gen this codeVerifier redirectUri scope loginHint w)
  = sessionStorage_setItem "keycloak_code_verifier" codeVerifier w.
Proof. reflexivity. Qed.

Lemma sessionStorage_setItem_get (k v : string) (w : Window) :
  sessionStorage (sessionStorage_setItem k v w) !! k = Some v.
Proof. simpl. apply lookup_insert_eq. Qed.

(** C10.  Whatever the environment, the provider that [constructor] builds
    is configured, so [login] does not throw "Keycloak not configured": it
    returns normally, with the verifier written to [sessionStorage] and the
    window sent to the authorization URL. *)
Theorem login_never_not_configured (generateCodeChallenge : string -> string)
    (env : Env) (codeVerifier redirectUri : string) (loginHint : value)
    (w : Window) :
  let this := constructor env in
  let r := login generateCodeChallenge this codeVerifier redirectUri loginHint w in
  isConfigured this = true
  /\ snd r = Returned tt
  /\ snd r <> Thrown (Error "Keycloak not configured")
  /\ sessionStorage (fst r) !! "keycloak_code_verifier" = Some codeVerifier
  /\ location_href (fst r)
     = snd (buildAuthUrl generateCodeChallenge this codeVerifier redirectUri
              (Some "openid email profile") loginHint w).
Proof.
  intros this r. subst r this. unfold login.
  rewrite (isConfigured_constructor env). simpl negb. cbv iota.
  destruct (buildAuthUrl _ _ _ _ _ _ _) as [w1 url] eqn:Eb.
  pose proof (buildAuthUrl_window generateCodeChallenge (constructor env)
                codeVerifier redirectUri (Some "openid email profile")
                loginHint w) as Hw.
  rewrite Eb in Hw. simpl in Hw. subst w1.
  repeat split; try discriminate.
  simpl. apply lookup_insert_eq.
Qed.

(** ** [buildAuthUrl] *)

(** C6.  For every redirect URI and login hint, the URL that [buildAuthUrl]
    returns is the authorization endpoint followed by the query
    [response_type=code], [client_id], [redirect_uri], [scope],
    [code_challenge], [code_challenge_method=S256] (values form-encoded),
    and then [kc_idp_hint] when the hint is "google" or "microsoft"; the
    hint determined for a gmail.com address adds [kc_idp_hint=google]; and
    afterwards [sessionStorage] holds the verifier under
    "keycloak_code_verifier". *)
Theorem buildAuthUrl_query (generateCodeChallenge : string -> string)
    (this : KeycloakProvider) (codeVerifier redirectUri : string)
    (scope : option string) (loginHint : value) (w : Window) :
  let r := buildAuthUrl generateCodeChallenge this codeVerifier redirectUri
             scope loginHint w in
  snd r
  = endpoint this "auth"
    ++ "?response_type=code"
    ++ "&client_id=" ++ URLSearchParams.encode (clientId this)
    ++ "&redirect_uri=" ++ URLSearchParams.encode redirectUri
    ++ "&scope=" ++ URLSearchParams.encode (default "openid email profile" scope)
    ++ "&code_challenge="
    ++ URLSearchParams.encode (generateCodeChallenge codeVerifier)
    ++ "&code_challenge_method=S256"
    ++ idp_hint_query loginHint
  /\ idp_hint_query (determineLoginHintFromEmail "user@gmail.com")
     = "&kc_idp_hint=google"
  /\ sessionStorage (fst r) !! "keycloak_code_verifier" = Some codeVerifier.
Proof.
  intros r. subst r. split; [| split].
  - unfold buildAuthUrl, idp_hint_query. cbn [snd].
    destruct loginHint as [| |b|h|n]; try reflexivity.
    destruct (String.eqb h "google") eqn:Eg.
    { apply String.eqb_eq in Eg. subst h. reflexivity. }
    destruct (String.eqb h "microsoft") eqn:Em.
    { apply String.eqb_eq in Em. subst h. reflexivity. }
    rewrite andb_false_r. reflexivity.
  - reflexivity.
  - rewrite buildAuthUrl_window. apply sessionStorage_setItem_get.
Qed.

(** ** [clearLocalStorage] and [logout] *)

Lemma clearLocalStorage_local (w : Window) :
  localStorage (clearLocalStorage w)
  = delete "auth_provider" (delete "user_info" (delete "access_token" (localStorage w))).
Proof. unfold clearLocalStorage. simpl. now destruct (callbackProcessed w). Qed.

Lemma clearLocalStorage_session (w : Window) :
  sessionStorage (clearLocalStorage w)
  = delete "keycloak_id_token" (delete "keycloak_code_verifier" (sessionStorage w)).
Proof. unfold clearLocalStorage. simpl. now destruct (callbackProcessed w). Qed.

Lemma clearLocalStorage_href (w : Window) :
  location_href (clearLocalStorage w) = location_href w.
Proof. unfold clearLocalStorage. simpl. now destruct (callbackProcessed w). Qed.

Lemma clearLocalStorage_iframes (w : Window) :
  iframes (clearLocalStorage w) = iframes w.
Proof. unfold clearLocalStorage. simpl. now destruct (callbackProcessed w). Qed.

Lemma clearLocalStorage_cleared (w : Window) : cleared (clearLocalStorage w).
Proof.
  unfold cleared.
  rewrite clearLocalStorage_local, clearLocalStorage_session.
  repeat split; now simplify_map_eq.
Qed.

Lemma clearLocalStorage_identity_provider (w : Window) :
  localStorage (clearLocalStorage w) !! "identity_provider"
  = localStorage w !! "identity_provider".
Proof. rewrite clearLocalStorage_local. now simplify_map_eq. Qed.

Lemma performIdpSpecificLogout_storage (idp tok : option string) (w : Window) :
  localStorage (performIdpSpecificLogout idp tok w) = localStorage w
  /\ sessionStorage (performIdpSpecificLogout idp tok w) = sessionStorage w.
Proof.
  unfold performIdpSpecificLogout.
  destruct (negb (truthy_item idp) || negb (truthy_item tok)); [now split |].
  repeat case_bool_decide; now split.
Qed.

Lemma cleared_set_href (url : string) (w : Window) :
  cleared w -> cleared (set_href url w).
Proof. intros H; exact H. Qed.

Lemma cleared_not_logged_in (parse : string -> option value) (w : Window) :
  cleared w -> LoginButtons.isLoggedIn parse w = false.
Proof.
  intros (Ha & _). unfold LoginButtons.isLoggedIn. now rewrite Ha.
Qed.

Section Logout.

Variable JSON_parse : string -> option value.
Variable this : KeycloakProvider.

Lemma logout_try_throws (w : Window) (e : exn) :
  snd (logout_try JSON_parse this w) = Thrown e ->
  fst (logout_try JSON_parse this w) = w.
Proof.
  unfold logout_try.
  destruct (JSON_parse _) as [u|]; [| reflexivity].
  destruct (get_email u); [| reflexivity].
  destruct (truthy_item _); discriminate.
Qed.

Lemma logout_try_returns (w : Window) :
  snd (logout_try JSON_parse this w) = Returned tt ->
  cleared (fst (logout_try JSON_parse this w)).
Proof.
  unfold logout_try.
  destruct (JSON_parse _) as [u|]; [| discriminate].
  destruct (get_email u); [| discriminate].
  destruct (truthy_item _); intros _; cbn [fst]; apply cleared_set_href.
  - unfold cleared.
    destruct (performIdpSpecificLogout_storage
                (localStorage w !! "identity_provider")
                (sessionStorage w !! "keycloak_id_token")
                (clearLocalStorage w)) as [-> ->].
    apply clearLocalStorage_cleared.
  - apply clearLocalStorage_cleared.
Qed.

Lemma logout_without_id_token (w : Window) :
  truthy_item (sessionStorage w !! "keycloak_id_token") = false ->
  logout JSON_parse this w = (set_href "/" (clearLocalStorage w), Returned tt).
Proof.
  intros Hn. unfold logout, logout_try.
  destruct (JSON_parse _) as [u|]; [| reflexivity].
  destruct (get_email u); [| reflexivity].
  now rewrite Hn.
Qed.

(** The provider label is not among the keys that [logout] removes,
    whichever way it ends. *)
Lemma logout_identity_provider (w : Window) :
  localStorage (fst (logout JSON_parse this w)) !! "identity_provider"
  = localStorage w !! "identity_provider".
Proof.
  unfold logout, logout_try.
  destruct (JSON_parse _) as [u|];
    [| cbn [fst set_href localStorage]; apply clearLocalStorage_identity_provider].
  destruct (get_email u);
    [| cbn [fst set_href localStorage]; apply clearLocalStorage_identity_provider].
  destruct (truthy_item _); cbn [fst set_href localStorage].
  - destruct (performIdpSpecificLogout_storage
                (localStorage w !! "identity_provider")
                (sessionStorage w !! "keycloak_id_token")
                (clearLocalStorage w)) as [-> _].
    apply clearLocalStorage_identity_provider.
  - apply clearLocalStorage_identity_provider.
Qed.

(** C7, as the code has it.  For every storage state and every behaviour
    of [JSON.parse], [logout] returns normally.  When its [try] block throws
    (the identity record does not parse, or parses to [null]), the outcome
    is the window with [clearLocalStorage] applied and sent to "/".  In
    every case the five keys that [clearLocalStorage] removes are gone
    afterwards, so [LoginButtons] does not show the logged-in view.  But
    local storage is not cleared: the provider label "identity_provider"
    is after [logout] what it was before, on the path through [catch] as on
    the others. *)
Theorem logout_leaves_label (w : Window) :
  let r := logout JSON_parse this w in
  snd r = Returned tt
  /\ (forall e : exn,
        snd (logout_try JSON_parse this w) = Thrown e ->
        fst r = set_href "/" (clearLocalStorage w) /\ location_href (fst r) = "/")
  /\ cleared (fst r)
  /\ LoginButtons.isLoggedIn JSON_parse (fst r) = false
  /\ localStorage (fst r) !! "identity_provider"
     = localStorage w !! "identity_provider".
Proof.
  intros r. subst r.
  assert (Hc : cleared (fst (logout JSON_parse this w))).
  { unfold logout.
    destruct (logout_try JSON_parse this w) as [w1 [[]|e]] eqn:Et; cbn [fst].
    - pose proof (logout_try_returns w) as H. rewrite Et in H. now apply H.
    - apply cleared_set_href, clearLocalStorage_cleared. }
  split; [| split; [| split; [| split]]].
  - unfold logout. now destruct (logout_try JSON_parse this w) as [w1 [[]|e]].
  - intros e H. pose proof (logout_try_throws w e H) as Hw. unfold logout.
    destruct (logout_try JSON_parse this w) as [w1 [[]|e']]; simpl in *;
      [discriminate | now subst w1].
  - exact Hc.
  - now apply cleared_not_logged_in.
  - apply logout_identity_provider.
Qed.

End Logout.

Lemma logout_leaves_label_witness :
  let w := Scenario.corrupted_record in
  let r := logout Scenario.parse_braces Scenario.provider w in
  snd (logout_try Scenario.parse_braces Scenario.provider w)
  = Thrown (SyntaxError "Unexpected token in JSON")
  /\ snd r = Returned tt
  /\ fst r = set_href "/" (clearLocalStorage w)
  /\ localStorage (fst r) !! "access_token" = None
  /\ localStorage (fst r) !! "identity_provider" = Some "Google".
Proof.
  destruct (logout_leaves_label Scenario.parse_braces Scenario.provider
              Scenario.corrupted_record) as (H1 & H2 & H3 & _ & H5).
  split; [reflexivity |]. split; [exact H1 |].
  split; [exact (proj1 (H2 (SyntaxError "Unexpected token in JSON") eq_refl)) |].
  split; [exact (proj1 H3) | exact H5].
Defined.

(** C2, evaluated.  With no id token held, [logout] sends the window to "/"
    and builds no end-session URL; it removes the access token, the
    identity record, "auth_provider", the verifier and the id token, and it
    leaves the provider label "identity_provider" in [localStorage]. *)
Theorem logout_without_id_token_keeps_label (JSON_parse : string -> option value)
    (this : KeycloakProvider) :
  let w := Scenario.signed_in_without_id_token in
  let r := logout JSON_parse this w in
  sessionStorage w !! "keycloak_id_token" = None
  /\ snd r = Returned tt
  /\ location_href (fst r) = "/"
  /\ iframes (fst r) = []
  /\ cleared (fst r)
  /\ localStorage (fst r) !! "identity_provider" = Some "Google".
Proof.
  intros w r. subst r.
  rewrite (logout_without_id_token JSON_parse this w) by reflexivity.
  cbn [fst snd]. split; [reflexivity |]. split; [reflexivity |].
  split; [reflexivity |]. split; [apply clearLocalStorage_iframes |].
  split; [apply cleared_set_href, clearLocalStorage_cleared |].
  change (localStorage (clearLocalStorage w) !! "identity_provider" = Some "Google").
  rewrite clearLocalStorage_identity_provider. reflexivity.
Qed.

(** ** [handleCallback] *)

Section HandleCallback.

Variable net : Network.
Variable this : KeycloakProvider.
Variables code redirectUri : string.

Local Abbreviation verifier_key := "keycloak_code_verifier".
Local Abbreviation missing_verifier :=
  (Error "PKCE code verifier not found. Please restart the authentication flow.").

(** The window at the end of a call: the verifier is removed when the call
    returns; when the call throws, the verifier is as it was, but for one
    case: both endpoints have answered 2xx and the body of the userinfo
    response is [null], so that [normalizeUser] throws after the removal. *)
Lemma handleCallback_verifier_fate (w : Window) :
  let r := run net (handleCallback this code redirectUri w) in
  match snd r with
  | Returned _ => sessionStorage (fst r) !! verifier_key = None
  | Thrown e =>
      sessionStorage (fst r) !! verifier_key = sessionStorage w !! verifier_key
      \/ (sessionStorage (fst r) !! verifier_key = None
          /\ exists (st1 st2 : nat) (t1 t2 : string) (tk : tokens),
               token_endpoint net (endpoint this "token")
                 [ ("grant_type", "authorization_code"); ("client_id", clientId this);
                   ("code", code); ("redirect_uri", redirectUri);
                   ("code_verifier", default "" (sessionStorage w !! verifier_key)) ]
               = Response st1 t1 (Some tk)
               /\ ok st1 = true
               /\ userinfo_endpoint net (endpoint this "userinfo")
                    ("Bearer " ++ default "undefined" (access_token tk))
                  = ResponseNull st2 t2
               /\ ok st2 = true
               /\ e = TypeError "Cannot read properties of null (reading 'sub')")
  end.
Proof.
  unfold handleCallback.
  destruct (negb (truthy_item _)); [now left |].
  cbn [run]. unfold after_token.
  destruct (token_endpoint net _ _) as [e|st1 t1 [tk|]|st1 t1] eqn:Etok;
    [now left | | |].
  2: { destruct (negb (ok st1)); now left. }
  2: { destruct (negb (ok st1)); now left. }
  destruct (ok st1) eqn:Eok1; cbn [negb]; [| now left].
  cbn [run]. unfold after_userinfo.
  set (w1 := match id_token tk with
             | Some t => if truthy (VStr t)
                         then sessionStorage_setItem "keycloak_id_token" t w
                         else w
             | None => w
             end).
  assert (Hw1 : sessionStorage w1 !! verifier_key = sessionStorage w !! verifier_key).
  { subst w1. destruct (id_token tk) as [t|]; [| reflexivity].
    destruct (truthy (VStr t)); [| reflexivity].
    simpl. now rewrite lookup_insert_ne. }
  destruct (userinfo_endpoint net _ _) as [e|st2 t2 [u|]|st2 t2] eqn:Euser;
    [left; exact Hw1 | | |].
  - destruct (negb (ok st2)); [left; exact Hw1 |].
    simpl. apply lookup_delete_eq.
  - destruct (negb (ok st2)); left; exact Hw1.
  - destruct (ok st2) eqn:Eok2; cbn [negb]; [| left; exact Hw1].
    right. split; [simpl; apply lookup_delete_eq |].
    exists st1, st2, t1, t2, tk. now repeat split.
Qed.

Lemma handleCallback_missing (uri : string) (w : Window) :
  truthy_item (sessionStorage w !! verifier_key) = false ->
  handleCallback this code uri w = Done w (Thrown missing_verifier).
Proof. intros H. unfold handleCallback. now rewrite H. Qed.


(** C3.  After a call of [handleCallback] that returned, a second call,
    with the same code, finds no verifier: it throws "PKCE code verifier
    not found..." at once, issues no request whatever the network, and
    leaves the window as the first call left it. *)
Theorem handleCallback_second_call_fails (w w1 : Window) (first : callback_result) :
  run net (handleCallback this code redirectUri w) = (w1, Returned first) ->
  forall (net' : Network) (uri' : string),
    handleCallback this code uri' w1 = Done w1 (Thrown missing_verifier)
    /\ requests net' (handleCallback this code uri' w1) = []
    /\ run net' (handleCallback this code uri' w1) = (w1, Thrown missing_verifier).
Proof.
  intros Hfirst net' uri'.
  pose proof (handleCallback_verifier_fate w) as Hf. cbv zeta in Hf.
  rewrite Hfirst in Hf. cbn [fst snd] in Hf.
  assert (Hm : handleCallback this code uri' w1 = Done w1 (Thrown missing_verifier)).
  { apply handleCallback_missing. now rewrite Hf. }
  rewrite Hm. now repeat split.
Qed.

End HandleCallback.



(** The one rejection that removes the verifier: the userinfo endpoint
    answers 200 with the body [null]. *)
Example handleCallback_null_userinfo :
  let r := run Cases.null_userinfo
             (handleCallback Scenario.provider "abc" "http://localhost:3000/callback"
                Scenario.awaiting_callback) in
  snd r = Thrown (TypeError "Cannot read properties of null (reading 'sub')")
  /\ sessionStorage (fst r) !! "keycloak_code_verifier" = None
  /\ sessionStorage (fst r) !! "keycloak_id_token" = Some "IT1".
Proof. vm_compute. repeat split. Qed.

Lemma handleCallback_second_call_fails_witness :
  let w := Scenario.awaiting_callback in
  let uri := "http://localhost:3000/callback" in
  let first := run (Scenario.network 200)
                 (handleCallback Scenario.provider "abc" uri w) in
  User.id (result_user match snd first with
                       | Returned r => r
                       | Thrown _ => mkCallbackResult (mkTokens None None)
                                       (normalizeUser Scenario.user_claims)
                       end) = VStr "u1"
  /\ run (Scenario.network 200)
       (handleCallback Scenario.provider "abc" uri (fst first))
     = (fst first,
        Thrown (Error "PKCE code verifier not found. Please restart the authentication flow.")).
Proof.
  split; [reflexivity |].
  exact (proj2 (proj2 (handleCallback_second_call_fails (Scenario.network 200)
                         Scenario.provider "abc" "http://localhost:3000/callback"
                         Scenario.awaiting_callback _ _ eq_refl
                         (Scenario.network 200) "http://localhost:3000/callback"))).
Defined.

(** ** The guard of the [Callback] component *)

Lemma quiet_window {A} (from : Window) (t : task A) :
  quiet from t -> guard (window_of t) = guard from /\ resumes_quietly t.
Proof. destruct t; simpl; intros H; [now split | exact H | exact H]. Qed.

Lemma quiet_from {A} (w1 w2 : Window) (t : task A) :
  guard w1 = guard w2 -> quiet w1 t -> quiet w2 t.
Proof.
  intros E. destruct t; simpl; [congruence | |]; intros [H1 H2];
    (split; [congruence | exact H2]).
Qed.

Lemma quiet_bind {A B} (t : task A) (f : result A -> Window -> task B) :
  (forall r w, quiet w (f r w)) ->
  forall from, quiet from t -> quiet from (bind t f).
Proof.
  intros Hf. induction t as [w r|w url body k IH|w url auth k IH];
    intros from H; simpl in *.
  - apply (quiet_from w); [exact H | apply Hf].
  - destruct H as [H1 H2]. split; [exact H1 |].
    intros r w'. apply IH, H2.
  - destruct H as [H1 H2]. split; [exact H1 |].
    intros r w'. apply IH, H2.
Qed.

Lemma quiet_after_userinfo (this : KeycloakProvider) (tk : tokens)
    (r : fetch_result Claims.t) (w : Window) :
  quiet w (after_userinfo this tk r w).
Proof.
  unfold after_userinfo.
  destruct r as [e|st t [u|]|st t]; [reflexivity | | |];
    destruct (negb (ok st)); reflexivity.
Qed.

Lemma quiet_after_token (this : KeycloakProvider)
    (r : fetch_result tokens) (w : Window) :
  quiet w (after_token this r w).
Proof.
  unfold after_token.
  destruct r as [e|st t [tk|]|st t]; [reflexivity | | |];
    destruct (negb (ok st)); try reflexivity.
  cbn [quiet]. split; [| intros r w'; apply quiet_after_userinfo].
  destruct (id_token tk) as [i|]; [| reflexivity].
  destruct (truthy (VStr i)); reflexivity.
Qed.

Lemma quiet_handleCallback (this : KeycloakProvider) (code uri : string)
    (w : Window) :
  quiet w (handleCallback this code uri w).
Proof.
  unfold handleCallback.
  destruct (negb (truthy_item _)); simpl; [reflexivity |].
  split; [reflexivity | intros r w'; apply quiet_after_token].
Qed.

Module CallbackFacts.
Import Callback.

Section Platform.

Variable JSON_stringify : User.t -> string.
Variable keycloakProvider : KeycloakProvider.

Lemma store_result_guard (r : callback_result) (w : Window) :
  guard (store_result JSON_stringify r w) = guard w.
Proof.
  unfold store_result.
  destruct (detectIdentityProvider _) as [d|e]; [| reflexivity].
  destruct (id_token (result_tokens r)) as [i|]; [| reflexivity].
  destruct (truthy (VStr i)); reflexivity.
Qed.

Lemma handleCallback_skips (w : Window) :
  callbackProcessed w = true ->
  handleCallback JSON_stringify keycloakProvider w = Done w (Returned tt).
Proof. intros H. unfold handleCallback. now rewrite H. Qed.

(** The first run of the effect's function: it sets the flag, calls the
    provider at most once, and what it leaves suspended is quiet. *)
Lemma handleCallback_first (w : Window) :
  callbackProcessed w = false ->
  callbackProcessed (window_of (handleCallback JSON_stringify keycloakProvider w))
  = true
  /\ handleCallback_calls (window_of (handleCallback JSON_stringify keycloakProvider w))
     <= S (handleCallback_calls w)
  /\ resumes_quietly (handleCallback JSON_stringify keycloakProvider w).
Proof.
  intros H. unfold handleCallback. rewrite H. cbv zeta.
  destruct (truthy_item (URLSearchParams.get "error" _)); [simpl; auto |].
  destruct (negb (truthy_item (URLSearchParams.get "code" _))); [simpl; auto |].
  set (w1 := count_handleCallback
               (setStatus "Processing login..." (set_callbackProcessed true w))).
  match goal with
  | |- context [bind ?t ?f] => assert (Hq : quiet w1 (bind t f))
  end.
  { apply quiet_bind; [| apply quiet_handleCallback].
    intros [r|e] w'; cbn [quiet]; [apply store_result_guard | reflexivity]. }
  apply quiet_window in Hq as [Hg Hr].
  pose proof (f_equal fst Hg) as Hg1. pose proof (f_equal snd Hg) as Hg2.
  unfold guard in Hg1, Hg2. cbn [fst snd] in Hg1, Hg2.
  rewrite Hg1, Hg2. simpl. auto.
Qed.

Lemma settle_resumed (t : task unit) (p : Page) (others : list (task unit)) :
  page_ok p -> Forall resumes_quietly others -> quiet (window p) t ->
  page_ok (settle t others).
Proof.
  intros (_ & Hz & Hle) Ho Hq.
  apply quiet_window in Hq as [Hg Hr].
  injection Hg as Hg1 Hg2.
  assert (Hp : page_ok (mkPage (window_of t) (others ++ [t])%list)).
  { repeat split; simpl.
    - apply Forall_app. split; [exact Ho | now constructor].
    - rewrite Hg1, Hg2. exact Hz.
    - now rewrite Hg2. }
  destruct t as [w r| |]; [| exact Hp | exact Hp].
  destruct Hp as (_ & Hz' & Hle'). now repeat split.
Qed.

Lemma step_ok (p : Page) (e : event) :
  page_ok p -> page_ok (step JSON_stringify keycloakProvider p e).
Proof.
  intros Hp. pose proof Hp as (Hs & Hz & Hle).
  destruct e as [|i r|i r]; simpl.
  - destruct (callbackProcessed (window p)) eqn:Ef.
    + rewrite handleCallback_skips by exact Ef. simpl.
      now destruct p.
    + pose proof (handleCallback_first (window p) Ef) as (Ht & Hc & Hr).
      rewrite (Hz eq_refl) in Hc.
      set (t := handleCallback JSON_stringify keycloakProvider (window p)) in *.
      assert (Hq : page_ok (mkPage (window_of t) (suspended p ++ [t])%list)).
      { repeat split; simpl.
        - apply Forall_app. split; [exact Hs | now constructor].
        - rewrite Ht. discriminate.
        - exact Hc. }
      destruct t as [w r| |]; [| exact Hq | exact Hq].
      destruct Hq as (_ & Hz' & Hle'). now repeat split.
  - destruct (suspended p !! i) as [[| w url body k |]|] eqn:El; try exact Hp.
    apply (settle_resumed _ p); [exact Hp | now apply Forall_delete |].
    exact (Forall_lookup_1 _ _ _ _ Hs El r (window p)).
  - destruct (suspended p !! i) as [[| | w url auth k]|] eqn:El; try exact Hp.
    apply (settle_resumed _ p); [exact Hp | now apply Forall_delete |].
    exact (Forall_lookup_1 _ _ _ _ Hs El r (window p)).
Qed.

Lemma steps_ok (es : list event) :
  forall p, page_ok p -> page_ok (steps JSON_stringify keycloakProvider p es).
Proof.
  unfold steps. induction es as [|e es IH]; intros p Hp; simpl; [exact Hp |].
  apply IH, step_ok, Hp.
Qed.

(** C9.  Once [window.callbackProcessed] is set, the function that the
    effect of [Callback] runs returns at once: the window is unchanged and
    [keycloakProvider.handleCallback] is not called.  Hence on a page load
    that starts with the flag unset, whatever the order in which React runs
    the effect and the responses arrive, the provider's [handleCallback] is
    called at most once. *)
Theorem callback_handled_at_most_once :
  (forall w : Window,
     callbackProcessed w = true ->
     handleCallback JSON_stringify keycloakProvider w = Done w (Returned tt))
  /\ (forall (w0 : Window) (es : list event),
        callbackProcessed w0 = false ->
        handleCallback_calls w0 = 0 ->
        handleCallback_calls
          (window (steps JSON_stringify keycloakProvider (mkPage w0 []) es)) <= 1).
Proof.
  split; [exact handleCallback_skips |].
  intros w0 es Hf Hc.
  apply (steps_ok es (mkPage w0 [])).
  repeat split; simpl; [constructor | auto | lia].
Qed.

End Platform.

End CallbackFacts.

Lemma callback_handled_at_most_once_witness :
  handleCallback_calls (Callback.window (busy_page (fun _ => "{}"))) <= 1.
Proof.
  exact (proj2 (CallbackFacts.callback_handled_at_most_once (fun _ => "{}")
                  Scenario.provider)
           Scenario.awaiting_callback _ eq_refl eq_refl).
Defined.

Example busy_page_called_once :
  handleCallback_calls (Callback.window (busy_page (fun _ => "{}"))) = 1
  /\ Callback.suspended (busy_page (fun _ => "{}")) = []
  /\ status (Callback.window (busy_page (fun _ => "{}"))) = "Google login successful!".
Proof. vm_compute. repeat split. Qed.

(** ** Concrete runs of the domain router *)

Example hint_gmail : determineLoginHintFromEmail "user@gmail.com" = VStr "google".
Proof. reflexivity. Qed.

Example hint_outlook_upper : determineLoginHintFromEmail "User@OUTLOOK.com" = VStr "microsoft".
Proof. reflexivity. Qed.

Example hint_example_org : determineLoginHintFromEmail "user@example.org" = VNull.
Proof. reflexivity. Qed.

Example hint_no_at : determineLoginHintFromEmail "not-an-email" = VNull.
Proof. reflexivity. Qed.

Example hint_two_ats : determineLoginHintFromEmail "a@b@gmail.com" = VNull.
Proof. reflexivity. Qed.

Example hint_constructor :
  determineLoginHintFromEmail "x@constructor" = VObj "Object.prototype.constructor".
Proof. reflexivity. Qed.

Example valid_a_b_com : isValidEmail "a@b.com" = true.
Proof. reflexivity. Qed.

Example valid_invalid : isValidEmail "invalid" = false.
Proof. reflexivity. Qed.

Example valid_dot_first : isValidEmail "a@.com" = false.
Proof. reflexivity. Qed.

Example valid_with_space : isValidEmail "a b@c.de" = false.
Proof. reflexivity. Qed.

Example valid_two_ats : isValidEmail "a@b@c.de" = false.
Proof. reflexivity. Qed.

(** Scenario B of the specification: both requests succeed. *)
Example handleCallback_scenario_B :
  let r := run (Scenario.network 200)
             (handleCallback Scenario.provider "abc" "http://localhost:3000/callback"
                Scenario.awaiting_callback) in
  snd r = Returned (mkCallbackResult (mkTokens (Some "AT1") (Some "IT1"))
                      (User.mk (VStr "u1") (VStr "U One") (VStr "user@gmail.com")
                         VUndefined (VStr "keycloak")))
  /\ sessionStorage (fst r) !! "keycloak_id_token" = Some "IT1"
  /\ sessionStorage (fst r) !! "keycloak_code_verifier" = None.
Proof. vm_compute. repeat split. Qed.

(** A login through the [Callback] component followed by [logout]: the
    component writes "identity_provider", and [logout] leaves it behind. *)
Example login_then_logout_keeps_label :
  let w := Callback.window (page_after_login (fun _ => "{}")) in
  let w' := fst (logout Scenario.parse_object Scenario.provider w) in
  localStorage w !! "identity_provider" = Some "Google"
  /\ localStorage w !! "auth_provider" = Some "keycloak"
  /\ sessionStorage w !! "keycloak_id_token" = None
  /\ location_href w' = "/"
  /\ localStorage w' !! "auth_provider" = None
  /\ localStorage w' !! "access_token" = None
  /\ localStorage w' !! "identity_provider" = Some "Google".
Proof. vm_compute. repeat split. Qed.

(** * Further properties of the code *)

(** ** [handleCallback]: requests, outcome and what it touches *)

Section HandleCallbackRuns.

Variable net : Network.
Variable this : KeycloakProvider.
Variables code redirectUri : string.

Local Abbreviation verifier_key := "keycloak_code_verifier".
Local Abbreviation id_token_key := "keycloak_id_token".

Lemma handleCallback_start (w : Window) (v : string) :
  sessionStorage w !! verifier_key = Some v ->
  truthy (VStr v) = true ->
  handleCallback this code redirectUri w
  = AwaitToken w (endpoint this "token")
      (token_request_body this code redirectUri v) (after_token this).
Proof.
  intros Hv Ht. unfold handleCallback. rewrite Hv.
  simpl in Ht. cbn [truthy_item]. now rewrite Ht.
Qed.

Lemma handleCallback_no_verifier (w : Window) :
  truthy_item (sessionStorage w !! verifier_key) = false ->
  exists e, handleCallback this code redirectUri w = Done w (Thrown e).
Proof. intros H. unfold handleCallback. rewrite H. simpl. eauto. Qed.

Lemma verifier_cases (w : Window) :
  truthy_item (sessionStorage w !! verifier_key) = false
  \/ exists v, sessionStorage w !! verifier_key = Some v /\ truthy (VStr v) = true.
Proof.
  destruct (sessionStorage w !! verifier_key) as [v|]; [| now left].
  simpl. destruct (negb (v =? "")) eqn:E; [right; eauto | now left].
Qed.

Lemma after_token_answered (st : nat) (t : string) (tk : tokens) (w : Window) :
  ok st = true ->
  after_token this (Response st t (Some tk)) w
  = AwaitUserInfo (with_id_token tk w) (endpoint this "userinfo") (bearer tk)
      (after_userinfo this tk).
Proof. intros H. unfold after_token. now rewrite H. Qed.

Lemma after_token_refused (resp : fetch_result tokens) (w : Window) :
  (forall st t tk, resp = Response st t (Some tk) -> ok st = false) ->
  exists e, after_token this resp w = Done w (Thrown e).
Proof.
  intros H. unfold after_token. destruct resp as [e|st t [tk|]|st t]; [eauto | | |].
  - rewrite (H st t tk eq_refl). simpl. eauto.
  - destruct (negb (ok st)); eauto.
  - destruct (negb (ok st)); eauto.
Qed.

Lemma after_userinfo_done (tk : tokens) (resp : fetch_result Claims.t) (w : Window) :
  (exists st t u, resp = Response st t (Some u) /\ ok st = true
                  /\ after_userinfo this tk resp w
                     = Done (sessionStorage_removeItem verifier_key w)
                         (Returned (mkCallbackResult tk (normalizeUser u))))
  \/ (exists e, after_userinfo this tk resp w = Done w (Thrown e))
  \/ (exists e, after_userinfo this tk resp w
                = Done (sessionStorage_removeItem verifier_key w) (Thrown e)).
Proof.
  unfold after_userinfo.
  destruct resp as [e|st t [u|]|st t]; [right; left; eauto | | |].
  - destruct (ok st) eqn:E; simpl; [left | right; left; eauto].
    exists st, t, u. now repeat split.
  - destruct (negb (ok st)); right; left; eauto.
  - destruct (negb (ok st)); [right; left; eauto | right; right; eauto].
Qed.

Lemma with_id_token_frame (tk : tokens) (w : Window) :
  localStorage (with_id_token tk w) = localStorage w
  /\ location_href (with_id_token tk w) = location_href w
  /\ callbackProcessed (with_id_token tk w) = callbackProcessed w
  /\ iframes (with_id_token tk w) = iframes w
  /\ forall k, k <> id_token_key ->
       sessionStorage (with_id_token tk w) !! k = sessionStorage w !! k.
Proof.
  unfold with_id_token. destruct (id_token tk) as [t|]; [| now repeat split].
  destruct (truthy (VStr t)); [| now repeat split].
  repeat split. intros k Hk. simpl. now rewrite lookup_insert_ne.
Qed.

(** X1.  The requests of a call: none without a verifier; otherwise the token
    request, carrying the stored verifier, and after it at most the
    userinfo request, which is sent only once the token endpoint has
    answered 2xx with tokens and carries their access token. *)
Theorem handleCallback_requests_shape (w : Window) :
  let reqs := requests net (handleCallback this code redirectUri w) in
  length reqs <= 2
  /\ (truthy_item (sessionStorage w !! verifier_key) = false -> reqs = [])
  /\ (forall v : string,
        sessionStorage w !! verifier_key = Some v ->
        truthy (VStr v) = true ->
        exists rest : list request,
          reqs = TokenRequest (endpoint this "token")
                   (token_request_body this code redirectUri v) :: rest
          /\ forall q : request,
               In q rest ->
               exists (st : nat) (t : string) (tk : tokens),
                 token_endpoint net (endpoint this "token")
                   (token_request_body this code redirectUri v)
                 = Response st t (Some tk)
                 /\ ok st = true
                 /\ q = UserInfoRequest (endpoint this "userinfo") (bearer tk)).
Proof.
  intros reqs. subst reqs.
  assert (Hyes : forall v : string,
             sessionStorage w !! verifier_key = Some v ->
             truthy (VStr v) = true ->
             exists rest : list request,
               requests net (handleCallback this code redirectUri w)
               = TokenRequest (endpoint this "token")
                   (token_request_body this code redirectUri v) :: rest
               /\ length rest <= 1
               /\ forall q : request,
                    In q rest ->
                    exists (st : nat) (t : string) (tk : tokens),
                      token_endpoint net (endpoint this "token")
                        (token_request_body this code redirectUri v)
                      = Response st t (Some tk)
                      /\ ok st = true
                      /\ q = UserInfoRequest (endpoint this "userinfo") (bearer tk)).
  { intros v Hv Ht. rewrite (handleCallback_start w v Hv Ht). cbn [requests].
    destruct (token_endpoint net _ _) as [e|st t [tk|]|st t] eqn:Etok.
    - exists []. simpl. repeat split; [lia | intros q []].
    - destruct (ok st) eqn:Eok.
      + rewrite (after_token_answered st t tk w Eok). cbn [requests].
        destruct (after_userinfo_done tk
                    (userinfo_endpoint net (endpoint this "userinfo") (bearer tk))
                    (with_id_token tk w))
          as [(st2 & t2 & u & _ & _ & ->)|[[e ->]|[e ->]]];
          (eexists; split; [reflexivity |]; simpl; split; [lia |];
           intros q [<-|[]]; exists st, t, tk; now repeat split).
      + destruct (after_token_refused (Response st t (Some tk)) w) as [e ->].
        { intros ? ? ? [= -> _ _]. exact Eok. }
        exists []. simpl. repeat split; [lia | intros q []].
    - destruct (after_token_refused (Response st t None) w) as [e ->].
      { intros ? ? ? [=]. }
      exists []. simpl. repeat split; [lia | intros q []].
    - destruct (after_token_refused (ResponseNull st t) w) as [e ->].
      { intros ? ? ? [=]. }
      exists []. simpl. repeat split; [lia | intros q []]. }
  assert (Hno : truthy_item (sessionStorage w !! verifier_key) = false ->
                requests net (handleCallback this code redirectUri w) = []).
  { intros H. destruct (handleCallback_no_verifier w H) as [e ->]. reflexivity. }
  split; [| split; [exact Hno |]].
  - destruct (verifier_cases w) as [H|(v & Hv & Ht)].
    + rewrite (Hno H). simpl. lia.
    + destruct (Hyes v Hv Ht) as (rest & -> & Hl & _). simpl. lia.
  - intros v Hv Ht. destruct (Hyes v Hv Ht) as (rest & E & _ & Hq). eauto.
Qed.

(** What a call does to the window, whatever its outcome: outside the two
    keys "keycloak_code_verifier" and "keycloak_id_token" of
    [sessionStorage], nothing; in particular [localStorage] and the
    location are as they were. *)
Lemma handleCallback_frame (w : Window) :
  let w' := fst (run net (handleCallback this code redirectUri w)) in
  localStorage w' = localStorage w
  /\ location_href w' = location_href w
  /\ callbackProcessed w' = callbackProcessed w
  /\ iframes w' = iframes w
  /\ forall k : string,
       k <> verifier_key -> k <> id_token_key ->
       sessionStorage w' !! k = sessionStorage w !! k.
Proof.
  cbv zeta.
  destruct (verifier_cases w) as [H|(v & Hv & Ht)].
  { destruct (handleCallback_no_verifier w H) as [e ->]. now repeat split. }
  rewrite (handleCallback_start w v Hv Ht). cbn [run].
  destruct (token_endpoint net _ _) as [e|st t [tk|]|st t] eqn:Etok.
  - now repeat split.
  - destruct (ok st) eqn:Eok.
    + rewrite (after_token_answered st t tk w Eok). cbn [run].
      destruct (with_id_token_frame tk w) as (F1 & F2 & F3 & F4 & F5).
      destruct (after_userinfo_done tk
                  (userinfo_endpoint net (endpoint this "userinfo") (bearer tk))
                  (with_id_token tk w))
        as [(st2 & t2 & u & _ & _ & ->)|[[e ->]|[e ->]]];
        cbn [run fst]; repeat split; auto.
      all: intros k Hk1 Hk2; simpl; rewrite lookup_delete_ne by congruence; auto.
    + destruct (after_token_refused (Response st t (Some tk)) w) as [e ->].
      { intros ? ? ? [= -> _ _]. exact Eok. }
      now repeat split.
  - destruct (after_token_refused (Response st t None) w) as [e ->].
    { intros ? ? ? [=]. }
    now repeat split.
  - destruct (after_token_refused (ResponseNull st t) w) as [e ->].
    { intros ? ? ? [=]. }
    now repeat split.
Qed.

Lemma with_id_token_view (tk : tokens) (w : Window) :
  status (with_id_token tk w) = status w
  /\ userInfo (with_id_token tk w) = userInfo w
  /\ identityProvider (with_id_token tk w) = identityProvider w
  /\ location_origin (with_id_token tk w) = location_origin w
  /\ location_search (with_id_token tk w) = location_search w
  /\ handleCallback_calls (with_id_token tk w) = handleCallback_calls w.
Proof.
  unfold with_id_token. destruct (id_token tk) as [t|]; [| now repeat split].
  destruct (truthy (VStr t)); now repeat split.
Qed.

(** Nor does a call touch the state of the component or the rest of the
    location. *)
Lemma handleCallback_frame_view (w : Window) :
  let w' := fst (run net (handleCallback this code redirectUri w)) in
  status w' = status w
  /\ userInfo w' = userInfo w
  /\ identityProvider w' = identityProvider w
  /\ location_origin w' = location_origin w
  /\ location_search w' = location_search w
  /\ handleCallback_calls w' = handleCallback_calls w.
Proof.
  cbv zeta.
  destruct (verifier_cases w) as [H|(v & Hv & Ht)].
  { destruct (handleCallback_no_verifier w H) as [e ->]. now repeat split. }
  rewrite (handleCallback_start w v Hv Ht). cbn [run].
  destruct (token_endpoint net _ _) as [e|st t [tk|]|st t] eqn:Etok.
  - now repeat split.
  - destruct (ok st) eqn:Eok.
    + rewrite (after_token_answered st t tk w Eok). cbn [run].
      pose proof (with_id_token_view tk w) as Hv'.
      destruct (after_userinfo_done tk
                  (userinfo_endpoint net (endpoint this "userinfo") (bearer tk))
                  (with_id_token tk w))
        as [(st2 & t2 & u & _ & _ & ->)|[[e ->]|[e ->]]];
        cbn [run fst]; exact Hv'.
    + destruct (after_token_refused (Response st t (Some tk)) w) as [e ->].
      { intros ? ? ? [= -> _ _]. exact Eok. }
      now repeat split.
  - destruct (after_token_refused (Response st t None) w) as [e ->].
    { intros ? ? ? [=]. }
    now repeat split.
  - destruct (after_token_refused (ResponseNull st t) w) as [e ->].
    { intros ? ? ? [=]. }
    now repeat split.
Qed.

End HandleCallbackRuns.

Section HandleCallbackOutcome.

Variable net : Network.
Variable this : KeycloakProvider.
Variables code redirectUri : string.

Local Abbreviation verifier_key := "keycloak_code_verifier".
Local Abbreviation id_token_key := "keycloak_id_token".

(** When both endpoints answer 2xx with JSON other than [null], the call
    returns. *)
Lemma handleCallback_succeeds (w : Window) (v : string) (st1 st2 : nat)
    (t1 t2 : string) (tk : tokens) (u : Claims.t) :
  sessionStorage w !! verifier_key = Some v ->
  truthy (VStr v) = true ->
  token_endpoint net (endpoint this "token")
    (token_request_body this code redirectUri v) = Response st1 t1 (Some tk) ->
  ok st1 = true ->
  userinfo_endpoint net (endpoint this "userinfo") (bearer tk)
  = Response st2 t2 (Some u) ->
  ok st2 = true ->
  run net (handleCallback this code redirectUri w)
  = (sessionStorage_removeItem verifier_key (with_id_token tk w),
     Returned (mkCallbackResult tk (normalizeUser u))).
Proof.
  intros Hv Ht Htok Hok1 Hu Hok2.
  rewrite (handleCallback_start this code redirectUri w v Hv Ht). cbn [run].
  rewrite Htok, (after_token_answered this st1 t1 tk w Hok1). cbn [run].
  rewrite Hu. unfold after_userinfo. now rewrite Hok2.
Qed.

(** And only then. *)
Lemma handleCallback_returns_inv (w w1 : Window) (r : callback_result) :
  run net (handleCallback this code redirectUri w) = (w1, Returned r) ->
  exists (v : string) (st1 st2 : nat) (t1 t2 : string) (u : Claims.t),
    sessionStorage w !! verifier_key = Some v
    /\ truthy (VStr v) = true
    /\ token_endpoint net (endpoint this "token")
         (token_request_body this code redirectUri v)
       = Response st1 t1 (Some (result_tokens r))
    /\ ok st1 = true
    /\ userinfo_endpoint net (endpoint this "userinfo") (bearer (result_tokens r))
       = Response st2 t2 (Some u)
    /\ ok st2 = true
    /\ result_user r = normalizeUser u
    /\ w1 = sessionStorage_removeItem verifier_key (with_id_token (result_tokens r) w).
Proof.
  destruct (verifier_cases w) as [H|(v & Hv & Ht)].
  { destruct (handleCallback_no_verifier this code redirectUri w H) as [e ->].
    discriminate. }
  rewrite (handleCallback_start this code redirectUri w v Hv Ht). cbn [run].
  destruct (token_endpoint net _ _) as [e|st t [tk|]|st t] eqn:Etok;
    [discriminate | | |].
  2: { destruct (after_token_refused this (Response st t None) w) as [e ->];
       [intros ? ? ? [=] | discriminate]. }
  2: { destruct (after_token_refused this (ResponseNull st t) w) as [e ->];
       [intros ? ? ? [=] | discriminate]. }
  destruct (ok st) eqn:Eok.
  2: { destruct (after_token_refused this (Response st t (Some tk)) w) as [e ->];
       [intros ? ? ? [= -> _ _]; exact Eok | discriminate]. }
  rewrite (after_token_answered this st t tk w Eok). cbn [run].
  destruct (after_userinfo_done this tk
              (userinfo_endpoint net (endpoint this "userinfo") (bearer tk))
              (with_id_token tk w))
    as [(st2 & t2 & u & Hu & Hok2 & ->)|[[e ->]|[e ->]]];
    [| discriminate | discriminate].
  cbn [run]. intros [= <- <-]. cbn [result_tokens result_user].
  exists v, st, st2, t, t2, u. now repeat split.
Qed.

(** X2.  [handleCallback] returns exactly when a verifier is stored and both
    endpoints answer 2xx with a body that is JSON and not [null].  It then
    returns the tokens of the
    token response with the normalized claims of the userinfo response,
    and leaves the window with the id token stored (if the response had
    one) and the verifier removed. *)
Theorem handleCallback_returns_iff (w w1 : Window) (r : callback_result) :
  run net (handleCallback this code redirectUri w) = (w1, Returned r)
  <->
  exists (v : string) (st1 st2 : nat) (t1 t2 : string) (u : Claims.t),
    sessionStorage w !! verifier_key = Some v
    /\ truthy (VStr v) = true
    /\ token_endpoint net (endpoint this "token")
         (token_request_body this code redirectUri v)
       = Response st1 t1 (Some (result_tokens r))
    /\ ok st1 = true
    /\ userinfo_endpoint net (endpoint this "userinfo") (bearer (result_tokens r))
       = Response st2 t2 (Some u)
    /\ ok st2 = true
    /\ result_user r = normalizeUser u
    /\ w1 = sessionStorage_removeItem verifier_key (with_id_token (result_tokens r) w).
Proof.
  split; [apply handleCallback_returns_inv |].
  intros (v & st1 & st2 & t1 & t2 & u & Hv & Ht & Htok & Hok1 & Hu & Hok2 & Hr & ->).
  rewrite (handleCallback_succeeds w v st1 st2 t1 t2 (result_tokens r) u)
    by assumption.
  destruct r as [tk usr]. simpl in *. now subst usr.
Qed.

(** X3.  A token endpoint that does not answer 2xx ends the call at once,
    whatever the body of the response ([null] included): one
    request, the error "Token exchange failed: <status> - <body>" (or the
    rejection of [fetch] itself), and the window exactly as it was: the
    verifier is still stored and no id token has been written. *)
Theorem handleCallback_token_failure (w : Window) (v : string) :
  sessionStorage w !! verifier_key = Some v ->
  truthy (VStr v) = true ->
  let body := token_request_body this code redirectUri v in
  let call := handleCallback this code redirectUri w in
  (forall (st : nat) (t : string) (j : option tokens),
     token_endpoint net (endpoint this "token") body = Response st t j ->
     ok st = false ->
     run net call
     = (w, Thrown (Error ("Token exchange failed: " ++ pretty st ++ " - " ++ t)))
     /\ requests net call = [TokenRequest (endpoint this "token") body])
  /\ (forall e : exn,
        token_endpoint net (endpoint this "token") body = Rejected e ->
        run net call = (w, Thrown e)
        /\ requests net call = [TokenRequest (endpoint this "token") body])
  /\ (forall (st : nat) (t : string),
        token_endpoint net (endpoint this "token") body = ResponseNull st t ->
        ok st = false ->
        run net call
        = (w, Thrown (Error ("Token exchange failed: " ++ pretty st ++ " - " ++ t)))
        /\ requests net call = [TokenRequest (endpoint this "token") body]).
Proof.
  intros Hv Ht body call. subst body call.
  rewrite (handleCallback_start this code redirectUri w v Hv Ht).
  cbn [run requests]. split; [| split].
  - intros st t j Htok Hok. rewrite Htok. unfold after_token. rewrite Hok.
    now split.
  - intros e Htok. rewrite Htok. now split.
  - intros st t Htok Hok. rewrite Htok. unfold after_token. rewrite Hok.
    now split.
Qed.

(** X4.  The id token is written when the token response arrives: once the
    token endpoint has answered 2xx with a non-empty id token, that token is
    in [sessionStorage] at the end of the call, also when the userinfo
    request fails and the call throws. *)
Theorem handleCallback_keeps_id_token (w : Window) (v : string) (st : nat)
    (t idt : string) (tk : tokens) :
  sessionStorage w !! verifier_key = Some v ->
  truthy (VStr v) = true ->
  token_endpoint net (endpoint this "token")
    (token_request_body this code redirectUri v) = Response st t (Some tk) ->
  ok st = true ->
  id_token tk = Some idt ->
  truthy (VStr idt) = true ->
  sessionStorage (fst (run net (handleCallback this code redirectUri w)))
  !! id_token_key = Some idt.
Proof.
  intros Hv Ht Htok Hok Hid Hidt.
  rewrite (handleCallback_start this code redirectUri w v Hv Ht). cbn [run].
  rewrite Htok, (after_token_answered this st t tk w Hok). cbn [run].
  assert (Hs : sessionStorage (with_id_token tk w) !! id_token_key = Some idt).
  { unfold with_id_token. rewrite Hid, Hidt. simpl. apply lookup_insert_eq. }
  destruct (after_userinfo_done this tk
              (userinfo_endpoint net (endpoint this "userinfo") (bearer tk))
              (with_id_token tk w))
    as [(st2 & t2 & u & _ & _ & ->)|[[e ->]|[e ->]]];
    cbn [run fst]; [| exact Hs |];
    simpl; rewrite lookup_delete_ne by discriminate; exact Hs.
Qed.

(** X5.  Whatever the outcome of a call, [localStorage], the location, the flag
    of the callback page and the hidden frames are as they were, and so is
    every key of [sessionStorage] other than "keycloak_code_verifier" and
    "keycloak_id_token": persisting the session is left to the caller. *)
Theorem handleCallback_touches_two_keys (w : Window) :
  let w' := fst (run net (handleCallback this code redirectUri w)) in
  localStorage w' = localStorage w
  /\ location_href w' = location_href w
  /\ callbackProcessed w' = callbackProcessed w
  /\ iframes w' = iframes w
  /\ (forall k : string,
        k <> verifier_key -> k <> id_token_key ->
        sessionStorage w' !! k = sessionStorage w !! k)
  /\ (sessionStorage w' !! verifier_key = None
      \/ sessionStorage w' !! verifier_key = sessionStorage w !! verifier_key).
Proof.
  intros w'. subst w'.
  destruct (handleCallback_frame net this code redirectUri w)
    as (F1 & F2 & F3 & F4 & F5).
  repeat split; auto.
  pose proof (handleCallback_verifier_fate net this code redirectUri w) as Hf.
  cbv zeta in Hf.
  destruct (snd (run net (handleCallback this code redirectUri w)));
    [now left |].
  destruct Hf as [Hf|[Hf _]]; [now right | now left].
Qed.

End HandleCallbackOutcome.

(** ** [clearLocalStorage], [performIdpSpecificLogout] and [logout] *)

Lemma clearLocalStorage_flag (w : Window) :
  callbackProcessed (clearLocalStorage w) = false.
Proof.
  unfold clearLocalStorage. simpl.
  destruct (callbackProcessed w) eqn:E; simpl; [reflexivity | exact E].
Qed.

Lemma window_eq (w1 w2 : Window) :
  localStorage w1 = localStorage w2 ->
  sessionStorage w1 = sessionStorage w2 ->
  location_href w1 = location_href w2 ->
  location_origin w1 = location_origin w2 ->
  location_search w1 = location_search w2 ->
  callbackProcessed w1 = callbackProcessed w2 ->
  iframes w1 = iframes w2 ->
  status w1 = status w2 ->
  userInfo w1 = userInfo w2 ->
  identityProvider w1 = identityProvider w2 ->
  handleCallback_calls w1 = handleCallback_calls w2 ->
  engine w1 = engine w2 ->
  w1 = w2.
Proof. destruct w1, w2; simpl; intros; now subst. Qed.

Lemma clearLocalStorage_rest (w : Window) :
  location_origin (clearLocalStorage w) = location_origin w
  /\ location_search (clearLocalStorage w) = location_search w
  /\ status (clearLocalStorage w) = status w
  /\ userInfo (clearLocalStorage w) = userInfo w
  /\ identityProvider (clearLocalStorage w) = identityProvider w
  /\ handleCallback_calls (clearLocalStorage w) = handleCallback_calls w
  /\ engine (clearLocalStorage w) = engine w.
Proof. unfold clearLocalStorage. simpl. now destruct (callbackProcessed w). Qed.

(** X6.  [clearLocalStorage] removes its five keys and nothing else: every other
    key of either storage keeps its value, the location is untouched, the
    flag of the callback page is unset afterwards, and clearing twice is
    clearing once. *)
Theorem clearLocalStorage_exact (w : Window) :
  cleared (clearLocalStorage w)
  /\ (forall k : string,
        k <> "access_token" -> k <> "user_info" -> k <> "auth_provider" ->
        localStorage (clearLocalStorage w) !! k = localStorage w !! k)
  /\ (forall k : string,
        k <> "keycloak_code_verifier" -> k <> "keycloak_id_token" ->
        sessionStorage (clearLocalStorage w) !! k = sessionStorage w !! k)
  /\ location_href (clearLocalStorage w) = location_href w
  /\ iframes (clearLocalStorage w) = iframes w
  /\ callbackProcessed (clearLocalStorage w) = false
  /\ clearLocalStorage (clearLocalStorage w) = clearLocalStorage w.
Proof.
  split; [apply clearLocalStorage_cleared |].
  split; [| split; [| split; [| split; [| split]]]].
  - intros k H1 H2 H3. rewrite clearLocalStorage_local.
    now rewrite !lookup_delete_ne by congruence.
  - intros k H1 H2. rewrite clearLocalStorage_session.
    now rewrite !lookup_delete_ne by congruence.
  - apply clearLocalStorage_href.
  - apply clearLocalStorage_iframes.
  - apply clearLocalStorage_flag.
  - destruct (clearLocalStorage_rest (clearLocalStorage w))
      as (R1 & R2 & R3 & R4 & R5 & R6 & R7).
    apply window_eq; auto using clearLocalStorage_href, clearLocalStorage_iframes.
    + rewrite clearLocalStorage_local.
      destruct (clearLocalStorage_cleared w) as (C1 & C2 & C3 & _).
      rewrite (delete_id _ "access_token") by exact C1.
      rewrite (delete_id _ "user_info") by exact C2.
      now rewrite (delete_id _ "auth_provider") by exact C3.
    + rewrite clearLocalStorage_session.
      destruct (clearLocalStorage_cleared w) as (_ & _ & _ & C4 & C5).
      rewrite (delete_id _ "keycloak_code_verifier") by exact C4.
      now rewrite (delete_id _ "keycloak_id_token") by exact C5.
    + rewrite !clearLocalStorage_flag. reflexivity.
Qed.

Lemma performIdpSpecificLogout_frames (label idToken : option string) (w : Window) :
  truthy_item idToken = true ->
  performIdpSpecificLogout label idToken w
  = match idp_logout_frames label with
    | src :: _ => append_iframe src w
    | [] => w
    end.
Proof.
  intros Ht. unfold performIdpSpecificLogout, idp_logout_frames. rewrite Ht.
  destruct label as [l|]; [| reflexivity].
  cbn [truthy_item negb orb].
  destruct (String.eqb l "") eqn:E0.
  { apply String.eqb_eq in E0. subst l. reflexivity. }
  cbn [negb]. cbv iota.
  destruct (String.eqb l "Google") eqn:Eg.
  { apply String.eqb_eq in Eg. subst l. reflexivity. }
  destruct (String.eqb l "Microsoft") eqn:Em.
  { apply String.eqb_eq in Em. subst l. reflexivity. }
  apply String.eqb_neq in Eg, Em.
  rewrite !bool_decide_eq_false_2 by congruence. reflexivity.
Qed.

Section LogoutWithToken.

Variable JSON_parse : string -> option value.
Variable this : KeycloakProvider.

Lemma logout_with_id_token_eq (w : Window) (idToken : string) (u : value) :
  sessionStorage w !! "keycloak_id_token" = Some idToken ->
  truthy (VStr idToken) = true ->
  JSON_parse (item_or (localStorage w !! "user_info") "{}") = Some u ->
  nullish u = false ->
  logout JSON_parse this w
  = (set_href (end_session_url this (location_origin w) idToken)
       (performIdpSpecificLogout (localStorage w !! "identity_provider")
          (Some idToken) (clearLocalStorage w)),
     Returned tt).
Proof.
  intros Hi Ht Hp Hn. unfold logout, logout_try. rewrite Hp, Hi.
  assert (Hg : get_email u = Returned VUndefined) by (now destruct u).
  rewrite Hg. simpl in Ht. cbn [truthy_item]. rewrite Ht. reflexivity.
Qed.

(** X7.  With a non-empty id token held and an identity record that parses to
    something other than [null], [logout] sends the window to the
    end-session URL of the realm, whose query is [client_id],
    [id_token_hint] (the stored id token) and [post_logout_redirect_uri]
    (the origin followed by "/"), form-encoded.  Before that it has removed
    the five keys of [clearLocalStorage] and added one hidden frame for the
    label "Google" or "Microsoft", none for any other label. *)
Theorem logout_with_id_token (w : Window) (idToken : string) (u : value) :
  sessionStorage w !! "keycloak_id_token" = Some idToken ->
  truthy (VStr idToken) = true ->
  JSON_parse (item_or (localStorage w !! "user_info") "{}") = Some u ->
  nullish u = false ->
  let r := logout JSON_parse this w in
  snd r = Returned tt
  /\ location_href (fst r) = end_session_url this (location_origin w) idToken
  /\ cleared (fst r)
  /\ iframes (fst r)
     = (iframes w ++ idp_logout_frames (localStorage w !! "identity_provider"))%list.
Proof.
  intros Hi Ht Hp Hn r. subst r.
  rewrite (logout_with_id_token_eq w idToken u Hi Ht Hp Hn). cbn [fst snd].
  rewrite performIdpSpecificLogout_frames by (simpl in Ht; exact Ht).
  split; [reflexivity |]. split; [reflexivity |].
  destruct (idp_logout_frames (localStorage w !! "identity_provider"))
    as [|src rest] eqn:Ef.
  - split; [apply cleared_set_href, clearLocalStorage_cleared |].
    simpl. rewrite clearLocalStorage_iframes. now rewrite app_nil_r.
  - assert (rest = []) as ->.
    { unfold idp_logout_frames in Ef.
      destruct (localStorage w !! "identity_provider") as [l|]; [| discriminate].
      destruct (String.eqb l "Google"); [now injection Ef |].
      destruct (String.eqb l "Microsoft"); [now injection Ef | discriminate]. }
    split.
    + destruct (clearLocalStorage_cleared w) as (C1 & C2 & C3 & C4 & C5).
      now repeat split.
    + simpl. now rewrite clearLocalStorage_iframes.
Qed.

End LogoutWithToken.

(** ** How [login], [handleCallback] and [logout] fit together *)

Lemma login_window (gen : string -> string) (this : KeycloakProvider)
    (codeVerifier redirectUri : string) (loginHint : value) (w : Window) :
  isConfigured this = true ->
  login gen this codeVerifier redirectUri loginHint w
  = (set_href (authorization_url gen this codeVerifier redirectUri loginHint)
       (sessionStorage_setItem "keycloak_code_verifier" codeVerifier w),
     Returned tt).
Proof.
  intros Hc. unfold login. rewrite Hc. cbn [negb].
  unfold buildAuthUrl, authorization_url, idp_hint_query.
  destruct loginHint as [| |b|h|n]; try reflexivity.
  destruct (String.eqb h "google") eqn:Eg.
  { apply String.eqb_eq in Eg. subst h. reflexivity. }
  destruct (String.eqb h "microsoft") eqn:Em.
  { apply String.eqb_eq in Em. subst h. reflexivity. }
  rewrite andb_false_r. reflexivity.
Qed.

(** X8.  The verifier that [login] stores is the one that the next
    [handleCallback] sends: on the window that a configured provider's
    [login] leaves, with a non-empty verifier, the first request of
    [handleCallback] is the token request with that verifier as
    [code_verifier], together with the given code and redirect URI. *)
Theorem login_then_handleCallback_sends_verifier (gen : string -> string)
    (net : Network) (this : KeycloakProvider)
    (codeVerifier loginUri code callbackUri : string) (loginHint : value)
    (w : Window) :
  isConfigured this = true ->
  truthy (VStr codeVerifier) = true ->
  let w1 := fst (login gen this codeVerifier loginUri loginHint w) in
  exists rest : list request,
    requests net (handleCallback this code callbackUri w1)
    = TokenRequest (endpoint this "token")
        [ ("grant_type", "authorization_code"); ("client_id", clientId this);
          ("code", code); ("redirect_uri", callbackUri);
          ("code_verifier", codeVerifier) ] :: rest.
Proof.
  intros Hc Hv w1. subst w1. rewrite (login_window gen this _ _ _ w Hc).
  cbn [fst].
  rewrite (handleCallback_start this code callbackUri _ codeVerifier);
    [| simpl; apply lookup_insert_eq | exact Hv].
  cbn [requests]. eauto.
Qed.

(** X9.  The id token that [handleCallback] received is the one that the next
    [logout] presents: on the window that a returning [handleCallback]
    leaves, if the tokens had a non-empty id token and the identity record
    parses to something other than [null], [logout] goes to the
    end-session URL with that id token as [id_token_hint], and the keys of
    [clearLocalStorage] are gone. *)
Theorem handleCallback_then_logout_presents_id_token (net : Network)
    (JSON_parse : string -> option value) (this : KeycloakProvider)
    (code redirectUri idToken : string) (w w1 : Window) (r : callback_result)
    (u : value) :
  run net (handleCallback this code redirectUri w) = (w1, Returned r) ->
  id_token (result_tokens r) = Some idToken ->
  truthy (VStr idToken) = true ->
  JSON_parse (item_or (localStorage w1 !! "user_info") "{}") = Some u ->
  nullish u = false ->
  location_href (fst (logout JSON_parse this w1))
  = end_session_url this (location_origin w) idToken
  /\ cleared (fst (logout JSON_parse this w1)).
Proof.
  intros Hrun Hid Ht Hp Hn.
  apply handleCallback_returns_inv in Hrun
    as (v & st1 & st2 & t1 & t2 & c & _ & _ & _ & _ & _ & _ & _ & Hw1).
  assert (Hs : sessionStorage w1 !! "keycloak_id_token" = Some idToken).
  { subst w1. simpl. rewrite lookup_delete_ne by discriminate.
    unfold with_id_token. rewrite Hid, Ht. simpl. apply lookup_insert_eq. }
  assert (Ho : location_origin w1 = location_origin w).
  { subst w1. unfold with_id_token. rewrite Hid, Ht. reflexivity. }
  rewrite (logout_with_id_token_eq JSON_parse this w1 idToken u Hs Ht Hp Hn).
  cbn [fst]. rewrite Ho. split; [reflexivity |].
  rewrite performIdpSpecificLogout_frames by (simpl in Ht; exact Ht).
  destruct (idp_logout_frames _);
    apply cleared_set_href; [apply clearLocalStorage_cleared |].
  destruct (clearLocalStorage_cleared w1) as (C1 & C2 & C3 & C4 & C5).
  now repeat split.
Qed.

(** ** The router, the URL builder and the label of the callback page *)

Lemma string_append_assoc (a b c : string) : (a ++ b) ++ c = a ++ b ++ c.
Proof.
  induction a as [|x a IH]; [reflexivity |].
  change (String x ((a ++ b) ++ c) = String x (a ++ b ++ c)). now rewrite IH.
Qed.

Lemma toString_snoc (ps : URLSearchParams.t) (kv : string * string) :
  ps <> [] ->
  URLSearchParams.toString (ps ++ [kv])%list
  = URLSearchParams.toString ps ++ "&" ++ URLSearchParams.encode_pair kv.
Proof.
  induction ps as [|p [|q ps] IH]; intros Hn; [congruence | reflexivity |].
  change (URLSearchParams.encode_pair p ++ "&"
          ++ URLSearchParams.toString ((q :: ps) ++ [kv])%list
          = (URLSearchParams.encode_pair p ++ "&"
             ++ URLSearchParams.toString (q :: ps))
            ++ "&" ++ URLSearchParams.encode_pair kv).
  rewrite IH by discriminate. now rewrite !string_append_assoc.
Qed.

Lemma table_hint_values (k : string) :
  Spec.table_hint k = VNull
  \/ Spec.table_hint k = VStr "google"
  \/ Spec.table_hint k = VStr "microsoft".
Proof.
  unfold Spec.table_hint, domainMappings. simpl.
  repeat (destruct (String.eqb k _); [auto |]). auto.
Qed.

Lemma login_hint_cases (email : string) :
  determineLoginHintFromEmail email = VNull
  \/ determineLoginHintFromEmail email = VStr "google"
  \/ determineLoginHintFromEmail email = VStr "microsoft"
  \/ exists n, determineLoginHintFromEmail email = VObj n.
Proof.
  unfold determineLoginHintFromEmail, get_literal.
  set (k := match email_domain email with Some k => k | None => "undefined" end).
  destruct (assoc k domainMappings) as [v|] eqn:Ea.
  - pose proof (table_hint_values k) as H. unfold Spec.table_hint in H.
    rewrite Ea in H. unfold or_else.
    rewrite (domainMappings_truthy k v Ea).
    destruct H as [H|[H|H]]; [discriminate | auto | auto].
  - destruct (mem k object_prototype_members); [right; right; right; eauto |].
    now left.
Qed.

(** X10.  Every hint that the router takes from its table reaches Keycloak:
    whatever the email, a string returned by [determineLoginHintFromEmail]
    is "google" or "microsoft", and [buildAuthUrl] called with it ends its
    URL with [&kc_idp_hint=] and that string; and when the router returns
    no string, the URL has no [kc_idp_hint]. *)
Theorem router_hint_reaches_url (gen : string -> string) (this : KeycloakProvider)
    (codeVerifier redirectUri email : string) (scope : option string) (w : Window) :
  let hint := determineLoginHintFromEmail email in
  let url := snd (buildAuthUrl gen this codeVerifier redirectUri scope hint w) in
  let base := snd (buildAuthUrl gen this codeVerifier redirectUri scope VNull w) in
  (forall h : string,
     hint = VStr h ->
     (h = "google" \/ h = "microsoft") /\ url = base ++ "&kc_idp_hint=" ++ h)
  /\ ((forall h : string, hint <> VStr h) -> url = base).
Proof.
  intros hint url base. subst hint url base.
  pose proof string_append_assoc as Happ.
  assert (Hq : forall h : string,
             h = "google" \/ h = "microsoft" ->
             snd (buildAuthUrl gen this codeVerifier redirectUri scope (VStr h) w)
             = snd (buildAuthUrl gen this codeVerifier redirectUri scope VNull w)
               ++ "&kc_idp_hint=" ++ h).
  { set (six := [ ("response_type", "code"); ("client_id", clientId this);
                   ("redirect_uri", redirectUri);
                   ("scope", default "openid email profile" scope);
                   ("code_challenge", gen codeVerifier);
                   ("code_challenge_method", "S256") ]).
    assert (H0 : snd (buildAuthUrl gen this codeVerifier redirectUri scope VNull w)
                 = endpoint this "auth" ++ "?" ++ URLSearchParams.toString six)
      by reflexivity.
    assert (H1 : forall h : string,
               h = "google" \/ h = "microsoft" ->
               snd (buildAuthUrl gen this codeVerifier redirectUri scope (VStr h) w)
               = endpoint this "auth" ++ "?"
                 ++ URLSearchParams.toString (six ++ [("kc_idp_hint", h)])%list)
      by (intros h [-> | ->]; reflexivity).
    intros h Hh. rewrite H0, (H1 h Hh), toString_snoc by discriminate.
    rewrite !Happ. destruct Hh as [-> | ->]; reflexivity. }
  destruct (login_hint_cases email) as [E|[E|[E|[n E]]]]; rewrite E; split.
  - intros h [=].
  - reflexivity.
  - intros h [= <-]. split; [now left | apply Hq; now left].
  - intros H. now destruct (H "google").
  - intros h [= <-]. split; [now right | apply Hq; now right].
  - intros H. now destruct (H "microsoft").
  - intros h [=].
  - intros _. reflexivity.
Qed.

Lemma callback_label_of_key (k : string) :
  (assoc k domainMappings = Some "google" ->
   assoc k Callback.domainMappings = Some "Google")
  /\ (assoc k domainMappings = Some "microsoft" ->
      assoc k Callback.domainMappings = Some "Microsoft").
Proof.
  split; intros H; unfold domainMappings in H; simpl in H.
  - destruct (String.eqb k "gmail.com") eqn:E1;
      [apply String.eqb_eq in E1; subst k; reflexivity |].
    clear E1.
    repeat (match type of H with
            | (if String.eqb k ?s then _ else _) = _ =>
                destruct (String.eqb k s); [discriminate H |]
            end).
    discriminate H.
  - destruct (String.eqb k "gmail.com"); [discriminate H |].
    repeat (match type of H with
            | (if String.eqb k ?s then _ else _) = _ =>
                let E := fresh "E" in
                destruct (String.eqb k s) eqn:E;
                [apply String.eqb_eq in E; subst k; reflexivity |]
            end).
    discriminate H.
Qed.

(** X11.  The label shown after login agrees with the hint used at login: for
    every email for which [determineLoginHintFromEmail] returns "google"
    (resp. "microsoft"), [detectIdentityProvider] returns "Google" (resp.
    "Microsoft"), and [performIdpSpecificLogout] has a logout frame for
    that label.  The converse fails: "googlemail.com" has a label and no
    hint. *)
Theorem label_agrees_with_hint (email : string) :
  (determineLoginHintFromEmail email = VStr "google" ->
   Callback.detectIdentityProvider (VStr email) = Returned (VStr "Google")
   /\ idp_logout_frames (Some "Google") <> [])
  /\ (determineLoginHintFromEmail email = VStr "microsoft" ->
      Callback.detectIdentityProvider (VStr email) = Returned (VStr "Microsoft")
      /\ idp_logout_frames (Some "Microsoft") <> [])
  /\ determineLoginHintFromEmail "user@googlemail.com" = VNull
  /\ Callback.detectIdentityProvider (VStr "user@googlemail.com")
     = Returned (VStr "Google").
Proof.
  assert (H : forall h l : string,
             (forall k, assoc k domainMappings = Some h ->
                        assoc k Callback.domainMappings = Some l) ->
             l <> "" ->
             determineLoginHintFromEmail email = VStr h ->
             Callback.detectIdentityProvider (VStr email) = Returned (VStr l)).
  { intros h l Hk Hl Hd.
    unfold determineLoginHintFromEmail, get_literal in Hd.
    unfold Callback.detectIdentityProvider, get_literal.
    destruct email as [|c email'] eqn:Ee; [discriminate Hd |].
    rewrite <- Ee in *. assert (Ht : truthy (VStr email) = true) by now subst.
    rewrite Ht. cbn [negb].
    set (k := match email_domain email with Some k => k | None => "undefined" end) in *.
    destruct (assoc k domainMappings) as [v|] eqn:Ea.
    - unfold or_else in Hd. rewrite (domainMappings_truthy k v Ea) in Hd.
      injection Hd as ->. rewrite (Hk k Ea). unfold or_else.
      assert (truthy (VStr l) = true) as ->; [| reflexivity].
      simpl. apply negb_true_iff, String.eqb_neq, Hl.
    - destruct (mem k object_prototype_members); discriminate Hd. }
  split; [| split; [| split; reflexivity]].
  - intros Hd. split; [| discriminate].
    apply (H "google" "Google"); [apply callback_label_of_key | discriminate | exact Hd].
  - intros Hd. split; [| discriminate].
    apply (H "microsoft" "Microsoft");
      [apply callback_label_of_key | discriminate | exact Hd].
Qed.

(** ** The effect of [Callback], run to completion *)

Lemma run_bind {A B} (net : Network) (t : task A)
    (f : result A -> Window -> task B) :
  run net (bind t f) = run net (f (snd (run net t)) (fst (run net t))).
Proof.
  induction t as [w r|w url body k IH|w url auth k IH]; simpl;
    [reflexivity | apply IH | apply IH].
Qed.

Lemma requests_bind {A B} (net : Network) (t : task A)
    (f : result A -> Window -> task B) :
  requests net (bind t f)
  = (requests net t ++ requests net (f (snd (run net t)) (fst (run net t))))%list.
Proof.
  induction t as [w r|w url body k IH|w url auth k IH]; simpl;
    [reflexivity | now rewrite IH | now rewrite IH].
Qed.

Section CallbackEffect.

Variable JSON_stringify : User.t -> string.
Variable net : Network.
Variable keycloakProvider : KeycloakProvider.

Local Abbreviation effect := (Callback.handleCallback JSON_stringify keycloakProvider).

(** The effect when it gets as far as calling the provider. *)
Lemma effect_calls_provider (w : Window) (code : string) :
  callbackProcessed w = false ->
  truthy_item (URLSearchParams.get "error" (location_search w)) = false ->
  URLSearchParams.get "code" (location_search w) = Some code ->
  truthy (VStr code) = true ->
  effect w
  = bind (handleCallback keycloakProvider code (callback_uri w) (entered w))
      (fun r w' =>
         match r with
         | Returned result_ =>
             Done (Callback.store_result JSON_stringify result_ w') (Returned tt)
         | Thrown error =>
             Done (setStatus ("Error: " ++ message error) w') (Returned tt)
         end).
Proof.
  intros Hf He Hc Ht. unfold Callback.handleCallback.
  rewrite Hf. cbv zeta. cbn [location_search set_callbackProcessed].
  rewrite He, Hc. simpl in Ht. cbn [truthy_item]. rewrite Ht. reflexivity.
Qed.

(** The effect otherwise: it is done at once. *)
Lemma effect_stops_early (w : Window) :
  callbackProcessed w = true
  \/ truthy_item (URLSearchParams.get "error" (location_search w)) = true
  \/ truthy_item (URLSearchParams.get "code" (location_search w)) = false ->
  exists w', effect w = Done w' (Returned tt)
             /\ localStorage w' = localStorage w
             /\ sessionStorage w' = sessionStorage w
             /\ handleCallback_calls w' = handleCallback_calls w.
Proof.
  intros H. unfold Callback.handleCallback.
  destruct (callbackProcessed w); [eauto 6 |].
  cbv zeta. cbn [location_search set_callbackProcessed].
  destruct (truthy_item (URLSearchParams.get "error" _)); [eauto 6 |].
  destruct (truthy_item (URLSearchParams.get "code" _)); [| simpl; eauto 6].
  destruct H as [H|[H|H]]; discriminate H.
Qed.

Lemma effect_cases (w : Window) :
  (callbackProcessed w = true
   \/ truthy_item (URLSearchParams.get "error" (location_search w)) = true
   \/ truthy_item (URLSearchParams.get "code" (location_search w)) = false)
  \/ (callbackProcessed w = false
      /\ truthy_item (URLSearchParams.get "error" (location_search w)) = false
      /\ exists code, URLSearchParams.get "code" (location_search w) = Some code
                      /\ truthy (VStr code) = true).
Proof.
  destruct (callbackProcessed w); [auto |].
  destruct (truthy_item (URLSearchParams.get "error" _)); [auto |].
  destruct (URLSearchParams.get "code" (location_search w)) as [c|]; [| auto].
  simpl. destruct (negb (c =? "")) eqn:E; [| auto].
  right. repeat split. eauto.
Qed.

(** X12.  The effect never rejects, and it sends a request only on a page whose
    flag is unset, whose URL has no [error] parameter and a non-empty
    [code], and whose [sessionStorage] holds a verifier; the first request
    is then the token request for that code with the redirect URI
    [origin/callback]. *)
Theorem callback_effect_requests (w : Window) :
  snd (run net (effect w)) = Returned tt
  /\ (requests net (effect w) <> [] ->
      callbackProcessed w = false
      /\ truthy_item (URLSearchParams.get "error" (location_search w)) = false
      /\ exists code v : string,
           URLSearchParams.get "code" (location_search w) = Some code
           /\ truthy (VStr code) = true
           /\ sessionStorage w !! "keycloak_code_verifier" = Some v
           /\ truthy (VStr v) = true
           /\ exists rest : list request,
                requests net (effect w)
                = TokenRequest (endpoint keycloakProvider "token")
                    (token_request_body keycloakProvider code
                       (location_origin w ++ "/callback") v) :: rest).
Proof.
  destruct (effect_cases w) as [H|(Hf & He & code & Hc & Ht)].
  { destruct (effect_stops_early w H) as (w' & -> & _). simpl.
    split; [reflexivity | intros Hn; now destruct Hn]. }
  rewrite (effect_calls_provider w code Hf He Hc Ht).
  rewrite run_bind, requests_bind. split.
  { now destruct (snd (run net (handleCallback keycloakProvider code
                                  (callback_uri w) (entered w)))). }
  match goal with
  | |- context [(_ ++ requests net ?t)%list] =>
      assert (Hz : requests net t = []) by (now destruct (snd (run net _)))
  end.
  rewrite Hz, app_nil_r. intros Hn.
  split; [exact Hf |]. split; [exact He |].
  destruct (verifier_cases (entered w)) as [Hv|(v & Hv & Htv)].
  { destruct (handleCallback_no_verifier keycloakProvider code (callback_uri w)
                (entered w) Hv) as [e Hd].
    rewrite Hd in Hn. now destruct Hn. }
  exists code, v. repeat split; try assumption.
  rewrite (handleCallback_start keycloakProvider code (callback_uri w)
             (entered w) v Hv Htv).
  cbn [requests]. eauto.
Qed.

(** X13.  When the provider's [handleCallback] throws, the effect shows
    "Error: " and the message, and persists nothing: [localStorage] is as
    it was, and the component has no user to show. *)
Theorem callback_effect_failure (w : Window) (code : string) (e : exn) :
  callbackProcessed w = false ->
  truthy_item (URLSearchParams.get "error" (location_search w)) = false ->
  URLSearchParams.get "code" (location_search w) = Some code ->
  truthy (VStr code) = true ->
  snd (run net (handleCallback keycloakProvider code (callback_uri w) (entered w)))
  = Thrown e ->
  let w' := fst (run net (effect w)) in
  status w' = "Error: " ++ message e
  /\ localStorage w' = localStorage w
  /\ userInfo w' = userInfo w
  /\ callbackProcessed w' = true.
Proof.
  intros Hf He Hc Ht Hthrow w'. subst w'.
  rewrite (effect_calls_provider w code Hf He Hc Ht), run_bind, Hthrow.
  cbn [run fst].
  destruct (handleCallback_frame net keycloakProvider code (callback_uri w)
              (entered w)) as (F1 & F2 & F3 & F4 & F5).
  destruct (handleCallback_frame_view net keycloakProvider code (callback_uri w)
              (entered w)) as (V1 & V2 & _).
  cbn [status localStorage userInfo callbackProcessed setStatus].
  repeat split; [exact F1 | exact V2 | exact F3].
Qed.

Lemma effect_stores_session (w w1 : Window) (code : string)
    (res : callback_result) (label : value) :
  callbackProcessed w = false ->
  truthy_item (URLSearchParams.get "error" (location_search w)) = false ->
  URLSearchParams.get "code" (location_search w) = Some code ->
  truthy (VStr code) = true ->
  run net (handleCallback keycloakProvider code (callback_uri w) (entered w))
  = (w1, Returned res) ->
  Callback.detectIdentityProvider (User.email (result_user res)) = Returned label ->
  let w' := fst (run net (effect w)) in
  localStorage w' !! "access_token"
  = Some (default "undefined" (access_token (result_tokens res)))
  /\ localStorage w' !! "user_info" = Some (JSON_stringify (result_user res)).
Proof.
  intros Hf He Hc Ht Hrun Hl w'. subst w'.
  rewrite (effect_calls_provider w code Hf He Hc Ht), run_bind, Hrun.
  cbn [run fst snd]. unfold Callback.store_result. rewrite Hl.
  destruct (id_token (result_tokens res)) as [i|];
    [destruct (truthy (VStr i)) |]; simpl;
    split; now simplify_map_eq.
Qed.

(** X14.  When the provider's [handleCallback] returns and the label that
    [detectIdentityProvider] gives for the email claim is a string or
    [null] (not a member that the table inherits from [Object.prototype],
    as for an email such as "x@constructor"), the effect persists the
    session: in [localStorage] the access token, the serialized user,
    "keycloak" as "auth_provider" and the detected label as
    "identity_provider" (the string "Unknown" when the email is missing);
    the verifier is gone from [sessionStorage]; the state of the component
    holds the user and the label, and its status announces the login. *)
Theorem callback_effect_success (w w1 : Window) (code : string)
    (res : callback_result) (label : value) :
  callbackProcessed w = false ->
  truthy_item (URLSearchParams.get "error" (location_search w)) = false ->
  URLSearchParams.get "code" (location_search w) = Some code ->
  truthy (VStr code) = true ->
  run net (handleCallback keycloakProvider code (callback_uri w) (entered w))
  = (w1, Returned res) ->
  Callback.detectIdentityProvider (User.email (result_user res)) = Returned label ->
  is_object label = false ->
  let w' := fst (run net (effect w)) in
  localStorage w' !! "access_token"
  = Some (default "undefined" (access_token (result_tokens res)))
  /\ localStorage w' !! "user_info" = Some (JSON_stringify (result_user res))
  /\ localStorage w' !! "auth_provider" = Some "keycloak"
  /\ localStorage w' !! "identity_provider"
     = Some (Callback.to_string (engine w) (or_else label (VStr "Unknown")))
  /\ sessionStorage w' !! "keycloak_code_verifier" = None
  /\ userInfo w' = Some (result_user res)
  /\ identityProvider w' = label
  /\ status w' = (if truthy label
                  then Callback.to_string (engine w) label ++ " login successful!"
                  else "Login successful!").
Proof.
  intros Hf He Hc Ht Hrun Hl Hobj w'. subst w'.
  rewrite (effect_calls_provider w code Hf He Hc Ht), run_bind, Hrun.
  cbn [run fst snd]. unfold Callback.store_result. rewrite Hl.
  assert (Hv : sessionStorage w1 !! "keycloak_code_verifier" = None).
  { pose proof (handleCallback_verifier_fate net keycloakProvider code
                  (callback_uri w) (entered w)) as Hfate.
    cbv zeta in Hfate. now rewrite Hrun in Hfate. }
  destruct (id_token (result_tokens res)) as [i|]; [destruct (truthy (VStr i)) |];
    (destruct label as [| |b|s|n]; [| | destruct b | | discriminate Hobj];
     unfold or_else; cbn [truthy]; try destruct (negb (s =? ""));
     simpl; repeat split; now simplify_map_eq).
Qed.

(** With an email claim such as "x@constructor" the label is a member that
    the table inherits from [Object.prototype]: what is stored as
    "identity_provider" is the engine's text of that function, and the
    state setter takes the function for an updater. *)
Lemma store_result_inherited_member (tk : tokens) (user : User.t) (w : Window) :
  User.email user = VStr "x@constructor" ->
  let w' := Callback.store_result JSON_stringify (mkCallbackResult tk user) w in
  localStorage w' !! "identity_provider"
  = Some (object_text (engine w) "Object.prototype.constructor")
  /\ identityProvider w'
     = set_state_object (engine w) "Object.prototype.constructor" (identityProvider w)
  /\ status w'
     = object_text (engine w) "Object.prototype.constructor" ++ " login successful!".
Proof.
  intros He w'. subst w'. unfold Callback.store_result.
  cbn [result_user result_tokens]. rewrite He.
  change (Callback.detectIdentityProvider (VStr "x@constructor"))
    with (Returned (A := value) (VObj "Object.prototype.constructor")).
  destruct (id_token tk) as [i|]; [destruct (truthy (VStr i)) |];
    simpl; repeat split; now simplify_map_eq.
Qed.

(** X15.  What the callback page stores, the login page restores: after an
    effect whose provider call returned, if the access token is not the
    empty string and [JSON.parse] reads back what [JSON.stringify] wrote as
    a truthy value, the effect of [LoginButtons] on the next page load
    finds the session and the welcome page is shown with that value. *)
Theorem callback_then_mount_restores (JSON_parse : string -> option value)
    (w w1 : Window) (code : string) (res : callback_result) (label u : value) :
  callbackProcessed w = false ->
  truthy_item (URLSearchParams.get "error" (location_search w)) = false ->
  URLSearchParams.get "code" (location_search w) = Some code ->
  truthy (VStr code) = true ->
  run net (handleCallback keycloakProvider code (callback_uri w) (entered w))
  = (w1, Returned res) ->
  Callback.detectIdentityProvider (User.email (result_user res)) = Returned label ->
  truthy (VStr (default "undefined" (access_token (result_tokens res)))) = true ->
  truthy (VStr (JSON_stringify (result_user res))) = true ->
  JSON_parse (JSON_stringify (result_user res)) = Some u ->
  truthy u = true ->
  let v := LoginPage.mount JSON_parse (fresh_view (fst (run net (effect w)))) in
  LoginPage.isLoggedIn v = true
  /\ LoginPage.userInfo v = Some u
  /\ LoginPage.shows_welcome v = true.
Proof.
  intros Hf He Hc Ht Hrun Hl Ha Hs Hp Hu v. subst v.
  destruct (effect_stores_session w w1 code res label Hf He Hc Ht Hrun Hl)
    as (S1 & S2).
  unfold LoginPage.mount, fresh_view. cbn [LoginPage.view_window].
  rewrite S1, S2. simpl in Ha, Hs.
  change (default "" (Some (JSON_stringify (result_user res))))
    with (JSON_stringify (result_user res)).
  cbn [truthy_item]. rewrite Ha, Hs. cbn [andb]. rewrite Hp.
  unfold LoginPage.shows_welcome. simpl. now rewrite Hu.
Qed.

End CallbackEffect.

(** ** [URLSearchParams]: what the serializer emits, and reading it back *)

Lemma count_char_append (a : ascii) (s t : string) :
  count_char a (s ++ t) = count_char a s + count_char a t.
Proof.
  induction s as [|c s IH]; [reflexivity |].
  change (count_char a (String c (s ++ t))
          = count_char a (String c s) + count_char a t).
  simpl. rewrite IH. lia.
Qed.

Lemma all_chars_count (p : ascii -> bool) (a : ascii) (s : string) :
  p a = false -> all_chars p s = true -> count_char a s = 0.
Proof.
  intros Ha. induction s as [|c s IH]; simpl; [reflexivity |].
  intros H. apply andb_true_iff in H as [Hc Hs].
  destruct (Ascii.eqb c a) eqn:E; [| now apply IH].
  apply Ascii.eqb_eq in E. subst c. congruence.
Qed.

Lemma encode_byte_safe (c : ascii) :
  all_chars query_safe (URLSearchParams.encode_byte c) = true.
Proof. destruct c as [[] [] [] [] [] [] [] []]; reflexivity. Qed.

Lemma encode_safe (s : string) :
  all_chars query_safe (URLSearchParams.encode s) = true.
Proof.
  induction s as [|c s IH]; [reflexivity |].
  change (all_chars query_safe
            (URLSearchParams.encode_byte c ++ URLSearchParams.encode s) = true).
  now rewrite all_chars_append, encode_byte_safe, IH.
Qed.

Lemma encode_count (a : ascii) (s : string) :
  query_safe a = false -> count_char a (URLSearchParams.encode s) = 0.
Proof. intros Ha. apply (all_chars_count query_safe); [exact Ha | apply encode_safe]. Qed.

Lemma encode_pair_count (kv : string * string) :
  count_char "&" (URLSearchParams.encode_pair kv) = 0
  /\ count_char "=" (URLSearchParams.encode_pair kv) = 1.
Proof.
  unfold URLSearchParams.encode_pair.
  rewrite !count_char_append, !encode_count by reflexivity. now split.
Qed.

(** X16.  The serializer keeps the parameters apart: an encoded name or value
    contains none of [&], [=], [?], [#], [/], space (nor any character
    other than ASCII letters, digits, [*-._+%]), so the query string of
    [n] parameters has exactly [n] signs [=] and [n - 1] signs [&],
    whatever the redirect URI, client id, challenge or id token. *)
Theorem toString_separators (params : URLSearchParams.t) :
  (forall (s : string) (a : ascii),
     query_safe a = false -> count_char a (URLSearchParams.encode s) = 0)
  /\ count_char "=" (URLSearchParams.toString params) = length params
  /\ count_char "&" (URLSearchParams.toString params) = length params - 1.
Proof.
  split; [intros s a; apply encode_count |].
  induction params as [|p [|q ps] IH].
  - now split.
  - simpl. destruct (encode_pair_count p) as [H1 H2]. now rewrite H1, H2.
  - change (URLSearchParams.toString (p :: q :: ps))
      with (URLSearchParams.encode_pair p ++ "&"
            ++ URLSearchParams.toString (q :: ps)).
    destruct (encode_pair_count p) as [H1 H2]. destruct IH as [I1 I2].
    rewrite !count_char_append, H1, H2, I1, I2. simpl. split; lia.
Qed.

Lemma decode_encode_byte (c : ascii) (t : string) :
  QueryString.decode (URLSearchParams.encode_byte c ++ t)
  = String c (QueryString.decode t).
Proof. destruct c as [[] [] [] [] [] [] [] []]; reflexivity. Qed.

Lemma decode_encode (s : string) :
  QueryString.decode (URLSearchParams.encode s) = s.
Proof.
  induction s as [|c s IH]; [reflexivity |].
  change (QueryString.decode
            (URLSearchParams.encode_byte c ++ URLSearchParams.encode s)
          = String c s).
  now rewrite decode_encode_byte, IH.
Qed.

Lemma first_separator (a : ascii) (s t : string) :
  count_char a s = 0 ->
  QueryString.after_first a (s ++ String a t) = Some t
  /\ QueryString.before_first a (s ++ String a t) = s.
Proof.
  induction s as [|c s IH]; intros H.
  - simpl. change ("" ++ String a t) with (String a t). simpl.
    now rewrite Ascii.eqb_refl.
  - change (String c s ++ String a t) with (String c (s ++ String a t)).
    simpl in *. destruct (Ascii.eqb c a); [discriminate H |].
    destruct (IH H) as [-> ->]. now split.
Qed.

Lemma parse_encode_pair (kv : string * string) :
  QueryString.parse_pair (URLSearchParams.encode_pair kv) = kv.
Proof.
  destruct kv as [k v]. unfold QueryString.parse_pair, URLSearchParams.encode_pair.
  cbn [fst snd]. change ("=" ++ URLSearchParams.encode v)
    with (String "=" (URLSearchParams.encode v)).
  destruct (first_separator "=" (URLSearchParams.encode k) (URLSearchParams.encode v))
    as [-> ->]; [now apply encode_count |].
  now rewrite !decode_encode.
Qed.

Lemma split_no_separator (a : ascii) (s : string) :
  count_char a s = 0 -> split a s = [s].
Proof.
  induction s as [|c s IH]; simpl; [reflexivity |].
  destruct (Ascii.eqb c a); [discriminate |]. intros H. now rewrite IH.
Qed.

Lemma split_at_separator (a : ascii) (s t : string) :
  count_char a s = 0 -> split a (s ++ String a t) = s :: split a t.
Proof.
  induction s as [|c s IH]; intros H.
  - change ("" ++ String a t) with (String a t). simpl.
    now rewrite Ascii.eqb_refl.
  - change (String c s ++ String a t) with (String c (s ++ String a t)).
    simpl in *. destruct (Ascii.eqb c a); [discriminate H |].
    now rewrite IH.
Qed.

Lemma split_toString (p : string * string) (ps : URLSearchParams.t) :
  split "&" (URLSearchParams.toString (p :: ps))
  = map URLSearchParams.encode_pair (p :: ps).
Proof.
  revert p. induction ps as [|q ps IH]; intros p.
  - simpl. apply split_no_separator, encode_pair_count.
  - change (URLSearchParams.toString (p :: q :: ps))
      with (URLSearchParams.encode_pair p
            ++ String "&" (URLSearchParams.toString (q :: ps))).
    rewrite split_at_separator by apply encode_pair_count.
    now rewrite IH.
Qed.

Lemma encode_pair_non_empty (kv : string * string) :
  QueryString.non_empty (URLSearchParams.encode_pair kv) = true.
Proof.
  destruct (encode_pair_count kv) as [_ H].
  destruct (URLSearchParams.encode_pair kv); [discriminate H | reflexivity].
Qed.

Lemma toString_first_char (params : URLSearchParams.t) (c : ascii) (s : string) :
  URLSearchParams.toString params = String c s -> Ascii.eqb c "?" = false.
Proof.
  intros E. destruct (Ascii.eqb c "?") eqn:Ec; [| reflexivity].
  apply Ascii.eqb_eq in Ec. subst c.
  assert (H : count_char "?" (URLSearchParams.toString params) = 0).
  { clear E. induction params as [|p [|q ps] IH]; [reflexivity | |].
    - simpl. unfold URLSearchParams.encode_pair.
      now rewrite !count_char_append, !encode_count.
    - change (URLSearchParams.toString (p :: q :: ps))
        with (URLSearchParams.encode_pair p ++ "&"
              ++ URLSearchParams.toString (q :: ps)).
      rewrite !count_char_append, IH. unfold URLSearchParams.encode_pair.
      now rewrite !count_char_append, !encode_count. }
  rewrite E in H. discriminate H.
Qed.

Lemma parse_body (params : URLSearchParams.t) :
  map QueryString.parse_pair
    (List.filter QueryString.non_empty (split "&" (URLSearchParams.toString params)))
  = params.
Proof.
  destruct params as [|p ps]; [reflexivity |].
  rewrite split_toString. generalize (p :: ps). clear p ps.
  intros l. induction l as [|kv l IH]; [reflexivity |].
  cbn [map List.filter]. rewrite encode_pair_non_empty. cbn [map].
  now rewrite parse_encode_pair, IH.
Qed.

(** X17.  Round trip: a query string written by [toString] and read back by
    [new URLSearchParams] gives the same list of parameters, names and
    values unchanged, with or without the leading [?]. *)
Theorem parse_toString (params : URLSearchParams.t) :
  QueryString.parse (URLSearchParams.toString params) = params
  /\ QueryString.parse ("?" ++ URLSearchParams.toString params) = params.
Proof.
  split.
  - unfold QueryString.parse.
    destruct (URLSearchParams.toString params) as [|c s] eqn:E.
    + rewrite <- E. apply parse_body.
    + rewrite (toString_first_char params c s E), <- E. apply parse_body.
  - unfold QueryString.parse.
    change ("?" ++ URLSearchParams.toString params)
      with (String "?" (URLSearchParams.toString params)).
    cbn [Ascii.eqb]. simpl (Ascii.eqb "?" "?"). cbv iota. apply parse_body.
Qed.

(** ** The [LoginButtons] component *)

Lemma valid_email_hint (email : string) :
  isValidEmail email = true ->
  determineLoginHintFromEmail email = Spec.hintForEmail email.
Proof.
  intros Hv. apply valid_email_domain in Hv as (d & Hd & Hl & Hdot).
  unfold Spec.hintForEmail, determineLoginHintFromEmail.
  rewrite Hl, email_domain_piece, Hd. simpl.
  apply hint_of_key, dotted_not_inherited, contains_dot_lower, Hdot.
Qed.

Lemma logout_returns (JSON_parse : string -> option value)
    (this : KeycloakProvider) (w : Window) :
  snd (logout JSON_parse this w) = Returned tt
  /\ cleared (fst (logout JSON_parse this w)).
Proof.
  unfold logout.
  destruct (logout_try JSON_parse this w) as [w1 [[]|e]] eqn:Et; cbn [fst snd].
  - split; [reflexivity |].
    pose proof (logout_try_returns JSON_parse this w) as H.
    rewrite Et in H. now apply H.
  - split; [reflexivity | apply cleared_set_href, clearLocalStorage_cleared].
Qed.

Lemma logout_keeps_status (JSON_parse : string -> option value)
    (this : KeycloakProvider) (w : Window) :
  status (fst (logout JSON_parse this w)) = status w.
Proof.
  pose proof (clearLocalStorage_rest w) as (_ & _ & Hs & _).
  unfold logout, logout_try.
  destruct (JSON_parse _) as [u|]; [| exact Hs].
  destruct (get_email u); [| exact Hs].
  destruct (truthy_item (sessionStorage w !! "keycloak_id_token")) eqn:Et;
    [| exact Hs].
  cbn [fst].
  rewrite performIdpSpecificLogout_frames by exact Et.
  destruct (idp_logout_frames _); exact Hs.
Qed.

Section LoginPageFacts.

Variable generateCodeChallenge : string -> string.
Variable JSON_parse : string -> option value.
Variable keycloakProvider : KeycloakProvider.

Local Abbreviation mount := (LoginPage.mount JSON_parse).
Local Abbreviation handleLogin := (LoginPage.handleLogin generateCodeChallenge).
Local Abbreviation handleLogout := (LoginPage.handleLogout JSON_parse).

Lemma mount_skip (w0 : Window) (e : string) (al : list string) (b : bool)
    (o : option value) :
  truthy_item (localStorage w0 !! "access_token")
  && truthy_item (localStorage w0 !! "user_info") = false ->
  mount (LoginPage.mkView w0 e al b o) = LoginPage.mkView w0 e al b o.
Proof.
  intros H. unfold LoginPage.mount. cbn [LoginPage.view_window]. now rewrite H.
Qed.

Lemma mount_restore (w0 : Window) (e : string) (al : list string) (b : bool)
    (o : option value) (u : value) :
  truthy_item (localStorage w0 !! "access_token")
  && truthy_item (localStorage w0 !! "user_info") = true ->
  JSON_parse (default "" (localStorage w0 !! "user_info")) = Some u ->
  mount (LoginPage.mkView w0 e al b o) = LoginPage.mkView w0 e al true (Some u).
Proof.
  intros H Hp. unfold LoginPage.mount. cbn [LoginPage.view_window].
  now rewrite H, Hp.
Qed.

Lemma mount_clean (w0 : Window) (e : string) (al : list string) (b : bool)
    (o : option value) :
  truthy_item (localStorage w0 !! "access_token")
  && truthy_item (localStorage w0 !! "user_info") = true ->
  JSON_parse (default "" (localStorage w0 !! "user_info")) = None ->
  mount (LoginPage.mkView w0 e al b o)
  = LoginPage.mkView
      (localStorage_removeItem "user_info" (localStorage_removeItem "access_token" w0))
      e al b o.
Proof.
  intros H Hp. unfold LoginPage.mount. cbn [LoginPage.view_window].
  now rewrite H, Hp.
Qed.

(** X18.  The effect of [LoginButtons] on a fresh view: the welcome page is
    shown exactly when an access token and an identity record are stored
    (both non-empty) and the record parses to a truthy value, and then the
    window is untouched.  When both are stored and the record does not
    parse, the two keys are removed and every other key is kept.  Running
    the effect again changes nothing more. *)
Theorem mount_outcome (w : Window) :
  let v := mount (fresh_view w) in
  LoginPage.shows_welcome v = LoginButtons.isLoggedIn JSON_parse w
  /\ (LoginPage.shows_welcome v = true -> LoginPage.view_window v = w)
  /\ (truthy_item (localStorage w !! "access_token") = true ->
      truthy_item (localStorage w !! "user_info") = true ->
      JSON_parse (default "" (localStorage w !! "user_info")) = None ->
      localStorage (LoginPage.view_window v) !! "access_token" = None
      /\ localStorage (LoginPage.view_window v) !! "user_info" = None
      /\ (forall k : string,
            k <> "access_token" -> k <> "user_info" ->
            localStorage (LoginPage.view_window v) !! k = localStorage w !! k)
      /\ sessionStorage (LoginPage.view_window v) = sessionStorage w)
  /\ LoginPage.view_window (mount v) = LoginPage.view_window v.
Proof.
  intros v. subst v. unfold LoginButtons.isLoggedIn, fresh_view.
  destruct (truthy_item (localStorage w !! "access_token")
            && truthy_item (localStorage w !! "user_info")) eqn:Eb.
  2: { rewrite !mount_skip by exact Eb.
       split; [reflexivity |]. split; [discriminate |]. split; [| reflexivity].
       intros H1 H2. now rewrite H1, H2 in Eb. }
  destruct (JSON_parse (default "" (localStorage w !! "user_info"))) as [u|] eqn:Ep.
  - rewrite (mount_restore w "" [] false None u Eb Ep).
    rewrite (mount_restore w "" [] true (Some u) u Eb Ep).
    split; [reflexivity |]. split; [intros _; reflexivity |].
    split; [discriminate | reflexivity].
  - rewrite (mount_clean w "" [] false None Eb Ep).
    rewrite mount_skip by (simpl; now simplify_map_eq).
    cbn [LoginPage.view_window].
    split; [reflexivity |]. split; [discriminate |]. split; [| reflexivity].
    intros _ _ _. simpl. repeat split; try now simplify_map_eq.
    intros k H1 H2. now rewrite !lookup_delete_ne by congruence.
Qed.

(** X19.  [handleLogin] with a configured provider.  If the trimmed email is
    empty, it logs in without a hint.  If it is not empty and is not a
    valid address, it shows "Please enter a valid email address" and does
    nothing else: no verifier is stored and the window stays where it is.
    If it is a valid address, it stores the verifier and sends the window
    to the authorization URL, whose [kc_idp_hint] is the table's hint for
    what follows the [@], lowercased.  All this is for a call in which
    [generateCodeVerifier] and [generateCodeChallenge] return: they are
    taken as [codeVerifier] and [generateCodeChallenge] here, and the alert
    "Failed to initiate login", which a failure of theirs would bring, is
    outside this statement. *)
Theorem handleLogin_outcome (codeVerifier : string) (v : LoginPage.View) :
  isConfigured keycloakProvider = true ->
  is_ascii (LoginPage.email v) = true ->
  let address := trim (LoginPage.email v) in
  let w := LoginPage.view_window v in
  let sent (hint : value) :=
    LoginPage.with_window
      (set_href (authorization_url generateCodeChallenge keycloakProvider
                   codeVerifier (location_origin w ++ "/callback") hint)
         (sessionStorage_setItem "keycloak_code_verifier" codeVerifier w)) v in
  (address = "" -> handleLogin keycloakProvider codeVerifier v = sent VNull)
  /\ (address <> "" -> isValidEmail address = false ->
      handleLogin keycloakProvider codeVerifier v
      = LoginPage.alert "Please enter a valid email address" v)
  /\ (isValidEmail address = true ->
      handleLogin keycloakProvider codeVerifier v = sent (Spec.hintForEmail address)).
Proof.
  intros Hc _ address w sent. subst address w sent.
  unfold LoginPage.handleLogin. rewrite Hc. cbn [negb]. cbv zeta.
  split; [| split].
  - intros E. rewrite E. cbn [truthy String.eqb negb].
    now rewrite (login_window generateCodeChallenge keycloakProvider _ _ _ _ Hc).
  - intros Hn Hv. rewrite Hv. cbn [negb].
    assert (truthy (VStr (trim (LoginPage.email v))) = true) as ->; [| reflexivity].
    simpl. now apply negb_true_iff, String.eqb_neq.
  - intros Hv. rewrite Hv. cbn [negb].
    assert (truthy (VStr (trim (LoginPage.email v))) = true) as ->.
    { destruct (trim (LoginPage.email v)); [discriminate Hv | reflexivity]. }
    rewrite (valid_email_hint _ Hv).
    now rewrite (login_window generateCodeChallenge keycloakProvider _ _ _ _ Hc).
Qed.

(** X20.  [handleLogout] always ends logged out: the fallback of its [catch] is
    never taken, the window is the one that [logout] leaves, the keys of
    [clearLocalStorage] are gone, and the effect of the login page on the
    next load does not bring the session back. *)
Theorem handleLogout_outcome (v : LoginPage.View) :
  let v' := handleLogout keycloakProvider v in
  LoginPage.view_window v'
  = fst (logout JSON_parse keycloakProvider (LoginPage.view_window v))
  /\ LoginPage.isLoggedIn v' = false
  /\ LoginPage.userInfo v' = None
  /\ cleared (LoginPage.view_window v')
  /\ LoginPage.shows_welcome (mount v') = false.
Proof.
  intros v'. subst v'. unfold LoginPage.handleLogout.
  destruct (logout_returns JSON_parse keycloakProvider (LoginPage.view_window v))
    as [Hr Hc].
  destruct (logout JSON_parse keycloakProvider (LoginPage.view_window v))
    as [w1 [[]|e]]; [| discriminate Hr].
  cbn [fst] in Hc. cbn [LoginPage.view_window LoginPage.isLoggedIn LoginPage.userInfo fst].
  repeat split; try apply Hc.
  unfold LoginPage.mount. cbn [LoginPage.view_window].
  destruct Hc as (Ha & _). rewrite Ha. reflexivity.
Qed.

(** X21.  [handleLogout] of the callback page: it announces the logout with the
    label held by the component, never schedules its fallback, and leaves
    the window that [logout] leaves, with the keys of [clearLocalStorage]
    gone. *)
Theorem callback_handleLogout_outcome (w : Window) :
  let announced :=
    setStatus ("Logging out from "
               ++ Callback.to_string (engine w) (identityProvider w) ++ "...") w in
  let r := CallbackLogout.handleLogout JSON_parse keycloakProvider w in
  snd r = false
  /\ fst r = fst (logout JSON_parse keycloakProvider announced)
  /\ cleared (fst r)
  /\ status (fst r)
     = "Logging out from " ++ Callback.to_string (engine w) (identityProvider w) ++ "...".
Proof.
  intros announced r. subst r. unfold CallbackLogout.handleLogout.
  fold announced.
  destruct (logout_returns JSON_parse keycloakProvider announced) as [Hr Hc].
  pose proof (logout_keeps_status JSON_parse keycloakProvider announced) as Hs.
  destruct (logout JSON_parse keycloakProvider announced) as [w1 [[]|e]];
    [| discriminate Hr].
  cbn [fst snd] in *.
  split; [reflexivity |]. split; [reflexivity |]. split; [exact Hc | exact Hs].
Qed.

End LoginPageFacts.

(** ** The router and the case of letters *)

Lemma lower_char_at (c : ascii) :
  Ascii.eqb (lower_char c) "@" = Ascii.eqb c "@".
Proof. destruct c as [[] [] [] [] [] [] [] []]; reflexivity. Qed.

Lemma lower_char_idem (c : ascii) : lower_char (lower_char c) = lower_char c.
Proof. destruct c as [[] [] [] [] [] [] [] []]; reflexivity. Qed.

Lemma toLowerCase_idem (s : string) : toLowerCase (toLowerCase s) = toLowerCase s.
Proof.
  induction s as [|c s IH]; simpl; [reflexivity |].
  now rewrite lower_char_idem, IH.
Qed.

Lemma before_first_at_lower (s : string) :
  Spec.before_first_at (toLowerCase s) = toLowerCase (Spec.before_first_at s).
Proof.
  induction s as [|c s IH]; simpl; [reflexivity |].
  rewrite lower_char_at. destruct (Ascii.eqb c "@"); simpl; [reflexivity |].
  now rewrite IH.
Qed.

Lemma after_first_at_lower (s : string) :
  Spec.after_first_at (toLowerCase s) = toLowerCase <$> Spec.after_first_at s.
Proof.
  induction s as [|c s IH]; simpl; [reflexivity |].
  rewrite lower_char_at. destruct (Ascii.eqb c "@"); [reflexivity | exact IH].
Qed.

Lemma email_domain_lower (email : string) :
  email_domain (toLowerCase email) = email_domain email.
Proof.
  rewrite !email_domain_piece. unfold domain_piece.
  rewrite after_first_at_lower.
  destruct (Spec.after_first_at email) as [rest|]; simpl; [| reflexivity].
  now rewrite before_first_at_lower, toLowerCase_idem.
Qed.

(** X22.  Routing does not depend on the case of letters: on ASCII strings, two
    emails that differ only in case get the same hint from
    [determineLoginHintFromEmail] and the same label from
    [detectIdentityProvider]. *)
Theorem router_ignores_case (email other : string) :
  is_ascii email = true ->
  is_ascii other = true ->
  toLowerCase email = toLowerCase other ->
  determineLoginHintFromEmail email = determineLoginHintFromEmail other
  /\ Callback.detectIdentityProvider (VStr email)
     = Callback.detectIdentityProvider (VStr other).
Proof.
  intros _ _ E.
  assert (Hd : email_domain email = email_domain other).
  { now rewrite <- (email_domain_lower email), <- (email_domain_lower other), E. }
  split.
  - unfold determineLoginHintFromEmail. now rewrite Hd.
  - unfold Callback.detectIdentityProvider. rewrite Hd.
    assert (Ht : truthy (VStr email) = truthy (VStr other)).
    { destruct email, other; try reflexivity; discriminate E. }
    now rewrite Ht.
Qed.

(** ** After [logout] *)

Lemma logout_resets_flag (JSON_parse : string -> option value)
    (this : KeycloakProvider) (w : Window) :
  callbackProcessed (fst (logout JSON_parse this w)) = false.
Proof.
  pose proof (clearLocalStorage_flag w) as Hf.
  unfold logout, logout_try.
  destruct (JSON_parse _) as [u|]; [| exact Hf].
  destruct (get_email u); [| exact Hf].
  destruct (truthy_item (sessionStorage w !! "keycloak_id_token")) eqn:Et;
    [| exact Hf].
  cbn [fst]. rewrite performIdpSpecificLogout_frames by exact Et.
  destruct (idp_logout_frames _); exact Hf.
Qed.

(** X23.  Whatever the window, after [logout] the flag of the callback page is
    unset and no login is in progress: [handleCallback] throws
    "PKCE code verifier not found..." without sending a request, and the
    effect of the callback page, though free to run again, sends none
    either. *)
Theorem logout_ends_transaction (JSON_parse : string -> option value)
    (JSON_stringify : User.t -> string) (net : Network)
    (this : KeycloakProvider) (code redirectUri : string) (w : Window) :
  let w' := fst (logout JSON_parse this w) in
  callbackProcessed w' = false
  /\ run net (handleCallback this code redirectUri w')
     = (w', Thrown (Error
          "PKCE code verifier not found. Please restart the authentication flow."))
  /\ requests net (handleCallback this code redirectUri w') = []
  /\ requests net (Callback.handleCallback JSON_stringify this w') = [].
Proof.
  intros w'. subst w'.
  destruct (logout_returns JSON_parse this w) as [_ (_ & _ & _ & Hv & _)].
  assert (Hm : truthy_item
                 (sessionStorage (fst (logout JSON_parse this w))
                  !! "keycloak_code_verifier") = false) by now rewrite Hv.
  split; [apply logout_resets_flag |].
  rewrite (handleCallback_missing this code redirectUri _ Hm).
  split; [reflexivity |]. split; [reflexivity |].
  set (w' := fst (logout JSON_parse this w)) in *.
  destruct (effect_cases w') as [H|(Hf & He & c & Hc & Ht)].
  { destruct (effect_stops_early JSON_stringify this w' H) as (w2 & -> & _).
    reflexivity. }
  rewrite (effect_calls_provider JSON_stringify this w' c Hf He Hc Ht).
  rewrite requests_bind.
  assert (Hm' : truthy_item (sessionStorage (entered w')
                             !! "keycloak_code_verifier") = false) by exact Hm.
  rewrite (handleCallback_missing this c (callback_uri w') _ Hm').
  reflexivity.
Qed.

(** ** The properties above, on concrete runs *)

Lemma handleCallback_requests_shape_witness :
  exists rest : list request,
    requests (Scenario.network 200)
      (handleCallback Scenario.provider "abc" Cases.callback_uri
         Scenario.awaiting_callback)
    = TokenRequest (endpoint Scenario.provider "token")
        (token_request_body Scenario.provider "abc" Cases.callback_uri "v1") :: rest.
Proof.
  destruct (proj2 (proj2 (handleCallback_requests_shape (Scenario.network 200)
                            Scenario.provider "abc" Cases.callback_uri
                            Scenario.awaiting_callback)) "v1" eq_refl eq_refl)
    as (rest & E & _).
  exists rest. exact E.
Defined.

Lemma handleCallback_returns_iff_witness :
  run (Scenario.network 200)
    (handleCallback Scenario.provider "abc" Cases.callback_uri
       Scenario.awaiting_callback)
  = (sessionStorage_removeItem "keycloak_code_verifier"
       (with_id_token Cases.both_tokens Scenario.awaiting_callback),
     Returned (mkCallbackResult Cases.both_tokens
                 (normalizeUser Scenario.user_claims))).
Proof.
  apply (proj2 (handleCallback_returns_iff (Scenario.network 200)
                  Scenario.provider "abc" Cases.callback_uri
                  Scenario.awaiting_callback _ _)).
  exists "v1", 200, 200, "", "Unauthorized", Scenario.user_claims.
  repeat split.
Defined.

Lemma handleCallback_token_failure_witness :
  run Cases.refusing
    (handleCallback Scenario.provider "abc" Cases.callback_uri
       Scenario.awaiting_callback)
  = (Scenario.awaiting_callback,
     Thrown (Error "Token exchange failed: 400 - invalid_grant")).
Proof.
  exact (proj1 (proj1 (handleCallback_token_failure Cases.refusing
                         Scenario.provider "abc" Cases.callback_uri
                         Scenario.awaiting_callback "v1" eq_refl eq_refl)
                  400 "invalid_grant" None eq_refl eq_refl)).
Defined.

Lemma handleCallback_keeps_id_token_witness :
  sessionStorage
    (fst (run (Scenario.network 401)
            (handleCallback Scenario.provider "abc" Cases.callback_uri
               Scenario.awaiting_callback)))
  !! "keycloak_id_token" = Some "IT1".
Proof.
  exact (handleCallback_keeps_id_token (Scenario.network 401) Scenario.provider
           "abc" Cases.callback_uri Scenario.awaiting_callback "v1" 200 "" "IT1"
           Cases.both_tokens eq_refl eq_refl eq_refl eq_refl eq_refl eq_refl).
Defined.

Lemma handleCallback_touches_two_keys_witness :
  let w := Scenario.awaiting_callback in
  let w' := fst (run (Scenario.network 200)
                   (handleCallback Scenario.provider "abc" Cases.callback_uri w)) in
  sessionStorage w' !! "theme" = sessionStorage w !! "theme".
Proof.
  apply (proj1 (proj2 (proj2 (proj2 (proj2
           (handleCallback_touches_two_keys (Scenario.network 200)
              Scenario.provider "abc" Cases.callback_uri
              Scenario.awaiting_callback)))))); discriminate.
Defined.

Lemma clearLocalStorage_exact_witness :
  localStorage (clearLocalStorage Cases.signed_in) !! "identity_provider"
  = localStorage Cases.signed_in !! "identity_provider".
Proof.
  apply (proj1 (proj2 (clearLocalStorage_exact Cases.signed_in))); discriminate.
Defined.

Lemma logout_with_id_token_witness :
  let r := logout Scenario.parse_object Scenario.provider Cases.signed_in in
  location_href (fst r)
  = end_session_url Scenario.provider "http://localhost:3000" "IT1"
  /\ iframes (fst r) = ["https://accounts.google.com/logout"].
Proof.
  destruct (logout_with_id_token Scenario.parse_object Scenario.provider
              Cases.signed_in "IT1" (VObj "Object") eq_refl eq_refl eq_refl eq_refl)
    as (_ & Hh & _ & Hi).
  split; [exact Hh | exact Hi].
Defined.

Lemma login_then_handleCallback_sends_verifier_witness :
  exists rest : list request,
    requests Cases.refusing
      (handleCallback Scenario.provider "abc" Cases.callback_uri
         (fst (login (fun v => v) Scenario.provider "v9" Cases.callback_uri VNull
                 (Scenario.window_with ∅ ∅))))
    = TokenRequest (endpoint Scenario.provider "token")
        [ ("grant_type", "authorization_code");
          ("client_id", clientId Scenario.provider); ("code", "abc");
          ("redirect_uri", Cases.callback_uri); ("code_verifier", "v9") ] :: rest.
Proof.
  exact (login_then_handleCallback_sends_verifier (fun v => v) Cases.refusing
           Scenario.provider "v9" Cases.callback_uri "abc" Cases.callback_uri VNull
           (Scenario.window_with ∅ ∅) eq_refl eq_refl).
Defined.

Lemma handleCallback_then_logout_presents_id_token_witness :
  let w1 := fst (run (Scenario.network 200)
                   (handleCallback Scenario.provider "abc" Cases.callback_uri
                      Scenario.awaiting_callback)) in
  location_href (fst (logout Scenario.parse_object Scenario.provider w1))
  = end_session_url Scenario.provider "http://localhost:3000" "IT1".
Proof.
  exact (proj1 (handleCallback_then_logout_presents_id_token (Scenario.network 200)
                  Scenario.parse_object Scenario.provider "abc" Cases.callback_uri
                  "IT1" Scenario.awaiting_callback _ _ (VObj "Object")
                  eq_refl eq_refl eq_refl eq_refl eq_refl)).
Defined.

Lemma router_hint_reaches_url_witness :
  let w := Scenario.window_with ∅ ∅ in
  snd (buildAuthUrl (fun v => v) Scenario.provider "v9" Cases.callback_uri None
         (determineLoginHintFromEmail "user@gmail.com") w)
  = snd (buildAuthUrl (fun v => v) Scenario.provider "v9" Cases.callback_uri None
           VNull w)
    ++ "&kc_idp_hint=" ++ "google".
Proof.
  exact (proj2 (proj1 (router_hint_reaches_url (fun v => v) Scenario.provider "v9"
                         Cases.callback_uri "user@gmail.com" None
                         (Scenario.window_with ∅ ∅))
                  "google" eq_refl)).
Defined.

Lemma label_agrees_with_hint_witness :
  Callback.detectIdentityProvider (VStr "Ann@Gmail.com") = Returned (VStr "Google").
Proof.
  exact (proj1 (proj1 (label_agrees_with_hint "Ann@Gmail.com") eq_refl)).
Defined.

Lemma callback_effect_requests_witness :
  callbackProcessed Scenario.awaiting_callback = false
  /\ truthy_item
       (URLSearchParams.get "error" (location_search Scenario.awaiting_callback))
     = false.
Proof.
  assert (Hn : requests (Scenario.network 200)
                 (Callback.handleCallback Cases.stringify Scenario.provider
                    Scenario.awaiting_callback) <> []).
  { vm_compute. discriminate. }
  destruct (proj2 (callback_effect_requests Cases.stringify (Scenario.network 200)
                     Scenario.provider Scenario.awaiting_callback) Hn)
    as (Hf & He & _).
  split; [exact Hf | exact He].
Defined.

Lemma callback_effect_failure_witness :
  let w' := fst (run (Scenario.network 401)
                   (Callback.handleCallback Cases.stringify Scenario.provider
                      Scenario.awaiting_callback)) in
  status w' = "Error: Failed to get user info: 401 - Unauthorized"
  /\ localStorage w' = localStorage Scenario.awaiting_callback.
Proof.
  destruct (callback_effect_failure Cases.stringify (Scenario.network 401)
              Scenario.provider Scenario.awaiting_callback "abc"
              (Error "Failed to get user info: 401 - Unauthorized")
              eq_refl eq_refl eq_refl eq_refl eq_refl) as (Hs & Hl & _).
  split; [exact Hs | exact Hl].
Defined.

Lemma callback_effect_success_witness :
  let w' := fst (run (Scenario.network 200)
                   (Callback.handleCallback Cases.stringify Scenario.provider
                      Scenario.awaiting_callback)) in
  localStorage w' !! "identity_provider" = Some "Google"
  /\ status w' = "Google login successful!".
Proof.
  destruct (callback_effect_success Cases.stringify (Scenario.network 200)
              Scenario.provider Scenario.awaiting_callback _ "abc" _ (VStr "Google")
              eq_refl eq_refl eq_refl eq_refl eq_refl eq_refl eq_refl)
    as (_ & _ & _ & Hi & _ & _ & _ & Hs).
  split; [exact Hi | exact Hs].
Defined.

Lemma callback_then_mount_restores_witness :
  LoginPage.shows_welcome
    (LoginPage.mount Scenario.parse_object
       (fresh_view
          (fst (run (Scenario.network 200)
                  (Callback.handleCallback Cases.stringify Scenario.provider
                     Scenario.awaiting_callback)))))
  = true.
Proof.
  exact (proj2 (proj2 (callback_then_mount_restores Cases.stringify
                         (Scenario.network 200) Scenario.provider
                         Scenario.parse_object Scenario.awaiting_callback _ "abc" _
                         (VStr "Google") (VObj "Object")
                         eq_refl eq_refl eq_refl eq_refl eq_refl eq_refl
                         eq_refl eq_refl eq_refl eq_refl))).
Defined.

Lemma toString_separators_witness :
  count_char "&" (URLSearchParams.encode "a&b=c d") = 0.
Proof.
  exact (proj1 (toString_separators []) "a&b=c d" "&"%char eq_refl).
Defined.

Lemma mount_outcome_witness :
  let v := LoginPage.mount Scenario.parse_none (fresh_view Cases.corrupted) in
  localStorage (LoginPage.view_window v) !! "access_token" = None
  /\ localStorage (LoginPage.view_window v) !! "auth_provider" = Some "keycloak".
Proof.
  destruct (proj1 (proj2 (proj2 (mount_outcome Scenario.parse_none Cases.corrupted)))
              eq_refl eq_refl eq_refl) as (Ha & _ & Hk & _).
  split; [exact Ha |].
  rewrite (Hk "auth_provider") by discriminate. reflexivity.
Defined.

Lemma handleLogin_outcome_witness :
  location_href
    (LoginPage.view_window
       (LoginPage.handleLogin (fun v => v) Scenario.provider "v9"
          (Cases.typed " Ann@Gmail.com ")))
  = authorization_url (fun v => v) Scenario.provider "v9"
      "http://localhost:3000/callback" (VStr "google").
Proof.
  rewrite (proj2 (proj2 (handleLogin_outcome (fun v => v) Scenario.provider "v9"
                           (Cases.typed " Ann@Gmail.com ") eq_refl eq_refl))
             eq_refl).
  reflexivity.
Defined.

Lemma router_ignores_case_witness :
  determineLoginHintFromEmail "ANN@GMAIL.COM"
  = determineLoginHintFromEmail "ann@gmail.com".
Proof.
  exact (proj1 (router_ignores_case "ANN@GMAIL.COM" "ann@gmail.com"
                  eq_refl eq_refl eq_refl)).
Defined.

(** ** A provider that is not configured *)

(** X24.  [isConfigured] holds exactly when the base URL, the realm and the
    client id are all non-empty.  With a provider for which it fails,
    [login] throws "Keycloak not configured" and [handleLogin] shows its
    configuration alert, and neither stores a verifier nor moves the
    window; [handleLogin] does not even look at the email. *)
Theorem unconfigured_provider_stays_put (gen : string -> string)
    (this : KeycloakProvider) (codeVerifier redirectUri : string)
    (loginHint : value) (w : Window) (v : LoginPage.View) :
  (isConfigured this = true <->
   baseUrl this <> "" /\ realm this <> "" /\ clientId this <> "")
  /\ (isConfigured this = false ->
      login gen this codeVerifier redirectUri loginHint w
      = (w, Thrown (Error "Keycloak not configured"))
      /\ LoginPage.handleLogin gen this codeVerifier v
         = LoginPage.alert
             "Keycloak is not configured. Please check your environment variables." v).
Proof.
  split.
  - unfold isConfigured, truthy.
    rewrite !andb_true_iff, !negb_true_iff, !String.eqb_neq. tauto.
  - intros H. unfold login, LoginPage.handleLogin. rewrite H. now split.
Qed.

Lemma unconfigured_provider_stays_put_witness :
  let this := mkProvider "http://localhost:8080/auth" "idp-redirector-demo" "" in
  login (fun v => v) this "v9" Cases.callback_uri VNull (Scenario.window_with ∅ ∅)
  = (Scenario.window_with ∅ ∅, Thrown (Error "Keycloak not configured")).
Proof.
  exact (proj1 (proj2 (unconfigured_provider_stays_put (fun v => v)
                         (mkProvider "http://localhost:8080/auth"
                            "idp-redirector-demo" "")
                         "v9" Cases.callback_uri VNull (Scenario.window_with ∅ ∅)
                         (Cases.typed "")) eq_refl)).
Defined.
